(** * Word-embedding tutorial notebook: preprocessing, vocabulary and
      embedding-table assembly

    A shallow embedding of the procedural code of
    [tutorial_notebooks/Tut5_Word_Embeddings_Student.ipynb]:

    - the text normalizer [NLP_preprocessing_pipeline] (cell 7);
    - the [TextVectorization] layer as the notebook configures it (cell 14);
    - the token materializer that builds [X_train_words] (cell 19);
    - the loop that fills [embeddings_cbow] and [embeddings_skipgram]
      (cell 25);
    - the 0.5 decision threshold of exercise 2 (cell 32).

    Python strings are modelled as [string]; a character is a one-byte code
    point, which is what the corpus holds once it is read with
    [encoding="ISO-8859-1"].  Python lists are [list]s, indexing is the
    partial lookup [l !! i] and an [IndexError] is [None]. *)

From Stdlib Require Import Ascii String QArith.
From stdpp Require Import base option list sorting strings gmap.

Local Open Scope string_scope.
Local Open Scope nat_scope.

(** ** Python string primitives used by the notebook *)

Module PyStr.

Definition code (c : ascii) : nat := nat_of_ascii c.

(** [str.isspace] on one-byte code points, which is also the class the
    regular-expression escape [\s] denotes for [str] patterns. *)
Definition isspace (c : ascii) : bool :=
  let n := code c in
  ((9 <=? n) && (n <=? 13)) || ((28 <=? n) && (n <=? 32))
  || (n =? 133) || (n =? 160).

Definition is_upper (c : ascii) : bool :=
  let n := code c in (65 <=? n) && (n <=? 90).

Definition is_lower (c : ascii) : bool :=
  let n := code c in (97 <=? n) && (n <=? 122).

(** The character class [a-zA-Z]. *)
Definition is_alpha (c : ascii) : bool := is_lower c || is_upper c.

(** [str.lower] on one character: A-Z, and the Latin-1 capitals
    0xC0-0xDE other than the multiplication sign 0xD7. *)
Definition lower_char (c : ascii) : ascii :=
  let n := code c in
  if is_upper c then ascii_of_nat (n + 32)
  else if (192 <=? n) && (n <=? 222) && negb (n =? 215)
       then ascii_of_nat (n + 32)
       else c.

Fixpoint map_chars (f : ascii -> ascii) (s : string) : string :=
  match s with
  | EmptyString => EmptyString
  | String c s' => String (f c) (map_chars f s')
  end.

Fixpoint all_chars (p : ascii -> bool) (s : string) : bool :=
  match s with
  | EmptyString => true
  | String c s' => p c && all_chars p s'
  end.

(** [s.lower()] *)
Definition lower (s : string) : string := map_chars lower_char s.

(** [sep.join(l)] *)
Definition join (sep : string) (l : list string) : string :=
  String.concat sep l.

(** Does the pattern [http\S+] match at the very start of [s]? *)
Definition url_match_here (s : string) : bool :=
  match s with
  | String "h" (String "t" (String "t" (String "p" (String c _)))) =>
      negb (isspace c)
  | _ => false
  end.

(** [re.sub("http\S+", "", s)]: matches are found left to right and do not
    overlap; [\S+] is greedy, so a match that starts at an [h] swallows the
    whole run of non-space characters that follows.  [in_match] says that
    the scan is inside such a run. *)
Fixpoint re_sub_url_from (in_match : bool) (s : string) : string :=
  match s with
  | EmptyString => EmptyString
  | String c s' =>
      if in_match then
        if isspace c then String c (re_sub_url_from false s')
        else re_sub_url_from true s'
      else if url_match_here s then re_sub_url_from true s'
      else String c (re_sub_url_from false s')
  end.

Definition re_sub_url (s : string) : string := re_sub_url_from false s.

(** [re.sub("[^a-zA-Z]", " ", s)] *)
Definition re_sub_nonalpha (s : string) : string :=
  map_chars (fun c => if is_alpha c then c else " "%char) s.

(** A word of the normalized text: one or more letters a-z. *)
Definition lower_word (w : string) : Prop :=
  w <> EmptyString /\ all_chars is_lower w = true.

(** Text made of letters a-z and blanks only. *)
Definition lower_text (s : string) : Prop :=
  all_chars (fun c => is_lower c || (c =? " ")%char) s = true.

(** Some suffix of [s] starts with a match of [http\S+]. *)
Fixpoint has_url_match (s : string) : bool :=
  match s with
  | EmptyString => false
  | String _ s' => url_match_here s || has_url_match s'
  end.

End PyStr.

(** ** Text normalizer (cell 7) *)

Module Normalizer.

(** [wordnet.ADJ], [wordnet.NOUN], [wordnet.VERB], [wordnet.ADV] *)
Inductive wordnet_pos : Type := ADJ | NOUN | VERB | ADV.

(** The third-party resources the pipeline calls.  Their code and data
    (the HTML parser, the Punkt and Treebank tokenizers, the stop-word
    list, the perceptron tagger and WordNet) are not part of the notebook,
    so the pipeline is written over this interface.  A Penn Treebank tag
    is never empty; [pos_tag] returns its first character and the rest. *)
Record Resources : Type := {
  get_text : string -> string;            (* BeautifulSoup(s).get_text() *)
  word_tokenize : string -> list string;  (* nltk.word_tokenize(s) *)
  stopwords : list string;                (* stopwords.words("english") *)
  pos_tag : string -> ascii * string;     (* nltk.pos_tag([w])[0][1] *)
  lemmatize : string -> wordnet_pos -> string  (* lemmatizer.lemmatize(w, pos) *)
}.

(** [str.upper] on the one character [get_wordnet_pos] applies it to.  The
    three characters whose capital lies outside the one-byte range are left
    as they are; with or without their capital, they are no key of
    [tag_dict]. *)
Definition upper_char (c : ascii) : ascii :=
  let n := PyStr.code c in
  if PyStr.is_lower c then ascii_of_nat (n - 32)
  else if (224 <=? n) && (n <=? 254) && negb (n =? 247)
       then ascii_of_nat (n - 32)
       else c.

(** [tag_dict.get(tag, wordnet.NOUN)] *)
Definition tag_dict_get (tag : ascii) : wordnet_pos :=
  if (tag =? "J")%char then ADJ
  else if (tag =? "N")%char then NOUN
  else if (tag =? "V")%char then VERB
  else if (tag =? "R")%char then ADV
  else NOUN.

Definition get_wordnet_pos (R : Resources) (word : string) : wordnet_pos :=
  let tag := upper_char (fst (pos_tag R word)) in
  tag_dict_get tag.

(** The seven steps, in the order of the source. *)
Definition NLP_preprocessing_pipeline (R : Resources)
    (textual_sample : string) : string :=
  let s := PyStr.re_sub_url textual_sample in
  let s := get_text R s in
  let s := PyStr.re_sub_nonalpha s in
  let s := PyStr.lower s in
  let ws := word_tokenize R s in
  let ws := filter (fun w => w ∉ stopwords R) ws in
  let ws := map (fun w => lemmatize R w (get_wordnet_pos R w)) ws in
  PyStr.join " " ws.

(** A string the pipeline has nothing left to do on: it is [ws] joined by
    single blanks, every word is made of letters a-z, no [http\S+] match
    and no markup is left, the tokenizer gives back [ws], no word is a
    stop word and every word is its own lemma. *)
Definition normalized (R : Resources) (s : string) (ws : list string) : Prop :=
  s = PyStr.join " " ws
  /\ Forall PyStr.lower_word ws
  /\ PyStr.has_url_match s = false
  /\ get_text R s = s
  /\ word_tokenize R s = ws
  /\ Forall (fun w => w ∉ stopwords R) ws
  /\ Forall (fun w => lemmatize R w (get_wordnet_pos R w) = w) ws.

End Normalizer.

(** ** Configuration constants (cells 14 and 23) *)

Definition vocab_size : nat := 15 * 1000.  (* vocab_size = 15000 *)
Definition seq_length : nat := 100.
Definition embeddings_dimension : nat := 300.

(** ** The vectorization layer (cell 14) *)

Module Vectorizer.

(** Index 0 is the padding marker, index 1 the unknown marker. *)
Definition PAD : nat := 0.
Definition UNK : nat := 1.
Definition pad_token : string := "".
Definition oov_token : string := "[UNK]".

(** Modelled from the spec: the implementation of the layer's whitespace
    split is missing from the notebook, which only configures the layer
    with [standardize = None] and the default split.  A document is cut at
    runs of blanks; no empty token is produced. *)
Definition is_blank (c : ascii) : bool :=
  let n := PyStr.code c in ((9 <=? n) && (n <=? 13)) || (n =? 32).

Fixpoint split_from (cur : string) (s : string) : list string :=
  match s with
  | EmptyString => if decide (cur = EmptyString) then [] else [cur]
  | String c s' =>
      if is_blank c then
        if decide (cur = EmptyString) then split_from EmptyString s'
        else cur :: split_from EmptyString s'
      else split_from (cur ++ String c EmptyString) s'
  end.

Definition whitespace_split (s : string) : list string :=
  split_from EmptyString s.

(** What the split produces: a non-empty string without blanks. *)
Definition is_token (w : string) : Prop :=
  w <> EmptyString
  /\ PyStr.all_chars (fun c => negb (is_blank c)) w = true.

(** The layer object: its two configuration arguments and the vocabulary
    it has learned. *)
Record TextVectorization : Type := {
  max_tokens : nat;
  output_sequence_length : nat;
  vocabulary : list string
}.

(** [TextVectorization(standardize=None, max_tokens=..,
    output_sequence_length=..)]: before [adapt] the vocabulary holds the
    two reserved markers only. *)
Definition new_layer (max_tokens output_sequence_length : nat)
    : TextVectorization :=
  {| max_tokens := max_tokens;
     output_sequence_length := output_sequence_length;
     vocabulary := [pad_token; oov_token] |}.

(** Number of occurrences of [t] in the token stream. *)
Definition frequency (tokens : list string) (t : string) : nat :=
  length (filter (fun x => x = t) tokens).

(** [a] is ranked no later than [b]: it is more frequent, or as frequent
    and not smaller as a string. *)
Definition ranks_before (tokens : list string) (a b : string) : Prop :=
  frequency tokens b < frequency tokens a
  \/ (frequency tokens a = frequency tokens b /\ Is_true (String.leb b a)).

#[global] Instance ranks_before_dec tokens a b :
  Decision (ranks_before tokens a b).
Proof. unfold ranks_before. apply _. Defined.

(** Modelled from the spec: the vocabulary builder, whose implementation
    ([TextVectorization.adapt]) is missing from the notebook.  It computes
    token frequency over the documents it is given, keeps the V-2 most
    frequent distinct tokens and reserves index 0 for the padding marker
    and index 1 for the unknown marker. *)
Definition build_vocabulary (V : nat) (docs : list string) : list string :=
  let tokens := concat (map whitespace_split docs) in
  let ranked := merge_sort (ranks_before tokens) (remove_dups tokens) in
  pad_token :: oov_token :: take (V - 2) ranked.

(** Modelled from the spec: [layer.adapt(docs)], which is missing from the
    notebook.  The layer forgets what it had learned and builds its
    vocabulary from the documents it is given. *)
Definition adapt (ly : TextVectorization) (docs : list string)
    : TextVectorization :=
  {| max_tokens := max_tokens ly;
     output_sequence_length := output_sequence_length ly;
     vocabulary := build_vocabulary (max_tokens ly) docs |}.

(** Modelled from the spec: [layer.get_vocabulary()], the learned
    vocabulary as an ordered sequence of strings. *)
Definition get_vocabulary (ly : TextVectorization) : list string :=
  vocabulary ly.

(** Position of a token in the vocabulary, when it has one. *)
Definition token_index (vocab : list string) (t : string) : option nat :=
  fst <$> list_find (fun x => x = t) vocab.

(** Modelled from the spec: the token lookup of the layer, missing from
    the notebook.  Tokens absent from the vocabulary map to index 1. *)
Definition lookup_index (vocab : list string) (t : string) : nat :=
  default UNK (token_index vocab t).

(** Modelled from the spec: right-padding with index 0, or truncation, to
    exactly [L] entries. *)
Definition pad_or_truncate (L : nat) (ids : list nat) : list nat :=
  take L (ids ++ replicate (L - length ids) PAD).

(** Modelled from the spec: the TokenIdSequence of a document under a
    vocabulary, which the missing layer computes by tokenization, mapping
    and right-padding or truncation to exactly [L]. *)
Definition vectorize (vocab : list string) (L : nat) (doc : string)
    : list nat :=
  pad_or_truncate L (map (lookup_index vocab) (whitespace_split doc)).

(** Modelled from the spec: [layer(doc)], missing from the notebook, in
    state-passing style: the result and the layer object after the call.
    The vocabulary is immutable after construction. *)
Definition call (ly : TextVectorization) (doc : string)
    : list nat * TextVectorization :=
  (vectorize (vocabulary ly) (output_sequence_length ly) doc, ly).

(** Modelled from the spec: [layer(docs)] on a batch, one document after
    the other. *)
Fixpoint call_batch (ly : TextVectorization) (docs : list string)
    : list (list nat) * TextVectorization :=
  match docs with
  | [] => ([], ly)
  | doc :: docs' =>
      let '(ids, ly1) := call ly doc in
      let '(rest, ly2) := call_batch ly1 docs' in
      (ids :: rest, ly2)
  end.

(** The notebook's layer: cell 14 builds it and adapts it on the training
    split [Xclean_train]. *)
Definition vectorize_layer (Xclean_train : list string) : TextVectorization :=
  adapt (new_layer vocab_size seq_length) Xclean_train.

End Vectorizer.

(** ** Token-sequence materializer (cell 19) *)

Module Materializer.

(** [[vocab[w] for w in rev if vocab[w] not in ['','[UNK]']]] *)
Fixpoint materialize (vocab : list string) (rev : list nat)
    : option (list string) :=
  match rev with
  | [] => Some []
  | w :: rev' =>
      t ← vocab !! w;
      rest ← materialize vocab rev';
      Some (if decide (t ∈ [""; "[UNK]"]) then rest else t :: rest)
  end.

(** [X_train_words]: the comprehension over every row of [X_train_vec]. *)
Definition X_train_words (vocab : list string) (X_train_vec : list (list nat))
    : option (list (list string)) :=
  mapM (materialize vocab) X_train_vec.

(** The tokens the comprehension emits under the vocabulary
    [["", "[UNK]"] + rest]: those of [rest] other than the two reserved
    markers. *)
Definition emitted (rest : list string) (t : string) : Prop :=
  t ∈ rest /\ t ∉ [""; "[UNK]"].

#[global] Instance emitted_dec rest t : Decision (emitted rest t).
Proof. unfold emitted. apply _. Defined.

(** The indices of a sequence that are neither padding nor unknown. *)
Definition real_indices (ids : list nat) : list nat :=
  filter (fun i => i <> Vectorizer.PAD /\ i <> Vectorizer.UNK) ids.

End Materializer.

(** ** Embedding-table assembler (cell 25) *)

Module Assembler.

Section Loop.
Context {vec : Type}.

(** [vocab]; the trained mappings [w2v_model_cbow.wv] and
    [w2v_model_skipgram.wv]; the freshly initialized weight matrices
    [embedding_layer_cbow.get_weights()[0]] and
    [embedding_layer_skipgram.get_weights()[0]]. *)
Variable vocab : list string.
Variables wv_cbow wv_skipgram : gmap string vec.
Variables W_cbow W_skipgram : list vec.

(** The row appended for a token of index above 1: its trained vector
    when [tok in wv], else row 1 of the default matrix. *)
Definition trained_or_unk (wv : gmap string vec) (W : list vec)
    (tok : string) : option vec :=
  match wv !! tok with
  | Some v => Some v
  | None => W !! 1
  end.

(** One iteration of the loop on the pair
    [(embeddings_cbow, embeddings_skipgram)]. *)
Definition loop_body (st : list vec * list vec) (token_idx : nat)
    : option (list vec * list vec) :=
  let '(embeddings_cbow, embeddings_skipgram) := st in
  if decide (1 < token_idx) then  (* token_idx > 1 *)
    tok ← vocab !! token_idx;
    c ← trained_or_unk wv_cbow W_cbow tok;
    s ← trained_or_unk wv_skipgram W_skipgram tok;
    Some ((embeddings_cbow ++ [c])%list, (embeddings_skipgram ++ [s])%list)
  else
    c ← W_cbow !! token_idx;
    s ← W_skipgram !! token_idx;
    Some ((embeddings_cbow ++ [c])%list, (embeddings_skipgram ++ [s])%list).

(** [for token_idx in idxs: body] *)
Fixpoint for_each (idxs : list nat) (st : list vec * list vec)
    : option (list vec * list vec) :=
  match idxs with
  | [] => Some st
  | token_idx :: idxs' => st' ← loop_body st token_idx; for_each idxs' st'
  end.

(** The two lists after [for token_idx in range(0, len(vocab))]. *)
Definition fill_embeddings : option (list vec * list vec) :=
  for_each (seq 0 (length vocab)) ([], []).

Definition embeddings_cbow : option (list vec) := fst <$> fill_embeddings.
Definition embeddings_skipgram : option (list vec) := snd <$> fill_embeddings.

(** The row the assembler rule prescribes at index [i], for one variant. *)
Definition rule_row (wv : gmap string vec) (W : list vec) (i : nat)
    : option vec :=
  if decide (1 < i) then tok ← vocab !! i; trained_or_unk wv W tok
  else W !! i.

End Loop.

(** [keras.layers.Embedding(input_dim, output_dim)] once built: a matrix
    of [input_dim] rows. *)
Record Embedding (vec : Type) : Type := {
  input_dim : nat;
  output_dim : nat;
  weights : list vec
}.
Arguments input_dim {vec}.
Arguments output_dim {vec}.
Arguments weights {vec}.

(** Modelled from the spec: the shape check of [set_weights], whose
    implementation is missing from the notebook.  A table whose row count
    differs from the layer's is a fatal configuration error. *)
Definition set_weights {vec : Type} (ly : Embedding vec) (table : list vec)
    : option (Embedding vec) :=
  if decide (length table = input_dim ly) then
    Some {| input_dim := input_dim ly; output_dim := output_dim ly;
            weights := table |}
  else None.

End Assembler.

(** ** Decision threshold (cell 32) *)

Module Threshold.

Definition threshold : Q := (1 # 2)%Q.

(** Modelled from the spec: the conversion of a probability into a class,
    which the notebook leaves as the placeholder [np.where(...)].  A
    probability at or above the threshold is class 1, one below it is
    class 0. *)
Definition classify (p : Q) : nat :=
  if Qle_bool threshold p then 1 else 0.

End Threshold.

(** ** A concrete instance of the resources, for the worked examples *)

Module Examples.

(** NLTK's English stop-word list. *)
Definition english_stopwords : list string :=
  [ "i"; "me"; "my"; "myself"; "we"; "our"; "ours"; "ourselves"; "you";
    "you're"; "you've"; "you'll"; "you'd"; "your"; "yours"; "yourself";
    "yourselves"; "he"; "him"; "his"; "himself"; "she"; "she's"; "her";
    "hers"; "herself"; "it"; "it's"; "its"; "itself"; "they"; "them";
    "their"; "theirs"; "themselves"; "what"; "which"; "who"; "whom";
    "this"; "that"; "that'll"; "these"; "those"; "am"; "is"; "are"; "was";
    "were"; "be"; "been"; "being"; "have"; "has"; "had"; "having"; "do";
    "does"; "did"; "doing"; "a"; "an"; "the"; "and"; "but"; "if"; "or";
    "because"; "as"; "until"; "while"; "of"; "at"; "by"; "for"; "with";
    "about"; "against"; "between"; "into"; "through"; "during"; "before";
    "after"; "above"; "below"; "to"; "from"; "up"; "down"; "in"; "out";
    "on"; "off"; "over"; "under"; "again"; "further"; "then"; "once";
    "here"; "there"; "when"; "where"; "why"; "how"; "all"; "any"; "both";
    "each"; "few"; "more"; "most"; "other"; "some"; "such"; "no"; "nor";
    "not"; "only"; "own"; "same"; "so"; "than"; "too"; "very"; "s"; "t";
    "can"; "will"; "just"; "don"; "don't"; "should"; "should've"; "now";
    "d"; "ll"; "m"; "o"; "re"; "ve"; "y"; "ain"; "aren"; "aren't";
    "couldn"; "couldn't"; "didn"; "didn't"; "doesn"; "doesn't"; "hadn";
    "hadn't"; "hasn"; "hasn't"; "haven"; "haven't"; "isn"; "isn't"; "ma";
    "mightn"; "mightn't"; "mustn"; "mustn't"; "needn"; "needn't"; "shan";
    "shan't"; "shouldn"; "shouldn't"; "wasn"; "wasn't"; "weren";
    "weren't"; "won"; "won't"; "wouldn"; "wouldn't" ].

(** Tag removal on text whose only markup is tags written between angle
    brackets: everything from an opening bracket to the next closing one
    is dropped.  Text without brackets is returned as it is. *)
Fixpoint strip_tags_from (in_tag : bool) (s : string) : string :=
  match s with
  | EmptyString => EmptyString
  | String c s' =>
      if in_tag then strip_tags_from (negb (c =? ">")%char) s'
      else if (c =? "<")%char then strip_tags_from true s'
      else String c (strip_tags_from false s')
  end.

(** The instance: tags stripped as above, tokens cut at blanks, the
    English stop words, every word tagged as a noun and every word already
    its own lemma (which is what WordNet answers for the words the
    examples use). *)
Definition resources : Normalizer.Resources :=
  {| Normalizer.get_text := strip_tags_from false;
     Normalizer.word_tokenize := Vectorizer.whitespace_split;
     Normalizer.stopwords := english_stopwords;
     Normalizer.pos_tag := fun _ => ("N"%char, "N");
     Normalizer.lemmatize := fun w _ => w |}.

(** The spec's four-entry vocabulary and trained mapping. *)
Definition vocab4 : list string := [""; "[UNK]"; "film"; "good"].

Definition trained_good : gmap string (list Q) :=
  {[ "good" := [(1 # 10)%Q; (2 # 10)%Q] ]}.

End Examples.

Import Normalizer Vectorizer Materializer Assembler Threshold.


(** ** Views of a string used to state what the string steps keep *)

Module Scan.

(** [t] starts with the characters of [p], followed by one more character
    that is no whitespace: the shape [p\S] at the head of [t]. *)
Fixpoint starts_then_nonspace (p t : string) : bool :=
  match p, t with
  | EmptyString, String c _ => negb (PyStr.isspace c)
  | String a p', String c t' => (a =? c)%char && starts_then_nonspace p' t'
  | _, EmptyString => false
  end.

(** The characters of a string, as a list. *)
Definition chars (s : string) : list ascii := list_ascii_of_string s.

(** The whitespace characters of a string, in order. *)
Definition whitespace_of (s : string) : list ascii :=
  List.filter PyStr.isspace (chars s).

End Scan.

(** * Properties *)

(** ** Characters and strings *)

Section StringFacts.

Lemma lower_char_fixed c :
  PyStr.is_lower c || (c =? " ")%char = true ->
  (if PyStr.is_alpha c then c else " "%char) = c /\ PyStr.lower_char c = c.
Proof.
  destruct c as [[] [] [] [] [] [] [] []]; vm_compute; intros H;
    first [discriminate H | split; reflexivity].
Qed.

Lemma lower_after_nonalpha c :
  let c' := if PyStr.is_alpha c then c else " "%char in
  PyStr.is_lower (PyStr.lower_char c') || (PyStr.lower_char c' =? " ")%char
  = true.
Proof.
  destruct c as [[] [] [] [] [] [] [] []]; vm_compute; reflexivity.
Qed.

Lemma lower_not_space c :
  PyStr.is_lower c = true -> PyStr.isspace c = false.
Proof.
  destruct c as [[] [] [] [] [] [] [] []]; vm_compute; intros H;
    first [discriminate H | reflexivity].
Qed.

Lemma re_sub_nonalpha_fixed s :
  PyStr.lower_text s -> PyStr.re_sub_nonalpha s = s.
Proof.
  unfold PyStr.lower_text, PyStr.re_sub_nonalpha.
  induction s as [|c s IH]; simpl; [done|].
  intros [Hc Hs]%andb_prop.
  destruct (lower_char_fixed c Hc) as [-> _]. by rewrite IH.
Qed.

Lemma lower_fixed s : PyStr.lower_text s -> PyStr.lower s = s.
Proof.
  unfold PyStr.lower_text, PyStr.lower.
  induction s as [|c s IH]; simpl; [done|].
  intros [Hc Hs]%andb_prop.
  destruct (lower_char_fixed c Hc) as [_ ->]. by rewrite IH.
Qed.

Lemma re_sub_url_fixed s :
  PyStr.has_url_match s = false -> PyStr.re_sub_url s = s.
Proof.
  unfold PyStr.re_sub_url.
  induction s as [|c s IH]; [done|].
  change (PyStr.has_url_match (String c s))
    with (PyStr.url_match_here (String c s) || PyStr.has_url_match s).
  intros [Hhere Hrest]%orb_false_elim.
  change (PyStr.re_sub_url_from false (String c s))
    with (if PyStr.url_match_here (String c s)
          then PyStr.re_sub_url_from true s
          else String c (PyStr.re_sub_url_from false s)).
  rewrite Hhere. by rewrite IH.
Qed.

Lemma lower_text_normalized s : PyStr.lower_text (PyStr.lower (PyStr.re_sub_nonalpha s)).
Proof.
  unfold PyStr.lower_text, PyStr.lower, PyStr.re_sub_nonalpha.
  induction s as [|c s IH]; simpl; [done|].
  rewrite IH, andb_true_r. apply lower_after_nonalpha.
Qed.

Lemma all_chars_app p s t :
  PyStr.all_chars p (s ++ t) = PyStr.all_chars p s && PyStr.all_chars p t.
Proof.
  induction s as [|c s IH]; simpl; [done|]. by rewrite IH, andb_assoc.
Qed.

Lemma all_chars_weaken (p q : ascii -> bool) s :
  (forall c, p c = true -> q c = true) ->
  PyStr.all_chars p s = true -> PyStr.all_chars q s = true.
Proof.
  intros Hpq. induction s as [|c s IH]; simpl; [done|].
  intros [Hc Hs]%andb_prop. by rewrite (Hpq _ Hc), IH.
Qed.

Lemma lower_word_text w : PyStr.lower_word w -> PyStr.lower_text w.
Proof.
  intros [_ Hw]. unfold PyStr.lower_text.
  eapply all_chars_weaken; [|exact Hw].
  intros c Hc. by rewrite Hc.
Qed.

Lemma join_lower_text ws :
  Forall PyStr.lower_word ws -> PyStr.lower_text (PyStr.join " " ws).
Proof.
  unfold PyStr.join.
  induction 1 as [|w ws Hw Hws IH]; [done|].
  destruct ws as [|w' ws]; simpl.
  - by apply lower_word_text.
  - unfold PyStr.lower_text in *. rewrite !all_chars_app.
    rewrite (lower_word_text _ Hw). simpl in IH. by rewrite IH.
Qed.

End StringFacts.

(** ** Whitespace splitting *)

Section SplitFacts.

Lemma string_app_cons c (a b : string) :
  (String c a ++ b)%string = String c (a ++ b).
Proof. reflexivity. Qed.

Lemma string_app_assoc (a b c : string) : ((a ++ b) ++ c = a ++ (b ++ c))%string.
Proof.
  induction a as [|x a IH]; [done|]. rewrite !string_app_cons. by f_equal.
Qed.

Lemma string_app_empty_r (a : string) : (a ++ "")%string = a.
Proof. induction a as [|x a IH]; [done|]. rewrite string_app_cons. by f_equal. Qed.

Lemma string_app_nonempty (a : string) c b :
  (a ++ String c b)%string <> EmptyString.
Proof. by destruct a. Qed.

Lemma lower_not_blank c : PyStr.is_lower c = true -> is_blank c = false.
Proof.
  destruct c as [[] [] [] [] [] [] [] []]; vm_compute; intros H;
    first [discriminate H | reflexivity].
Qed.

Lemma lower_or_space_blank c :
  PyStr.is_lower c || (c =? " ")%char = true ->
  is_blank c = false -> PyStr.is_lower c = true.
Proof.
  destruct c as [[] [] [] [] [] [] [] []]; vm_compute; intros H1 H2;
    first [discriminate H1 | discriminate H2 | reflexivity].
Qed.

Lemma lower_word_token w : PyStr.lower_word w -> is_token w.
Proof.
  intros [Hne Hw]. split; [done|].
  eapply all_chars_weaken; [|exact Hw].
  intros c Hc. by rewrite (lower_not_blank c Hc).
Qed.

(** Reading a token moves it into the accumulator. *)
Lemma split_from_word w cur rest :
  PyStr.all_chars (fun c => negb (is_blank c)) w = true ->
  split_from cur (w ++ rest) = split_from (cur ++ w) rest.
Proof.
  revert cur. induction w as [|c w IH]; intros cur.
  - intros _. by rewrite string_app_empty_r.
  - cbn [PyStr.all_chars]. intros [Hc%negb_true_iff Hw]%andb_prop.
    rewrite string_app_cons. cbn [split_from].
    rewrite Hc, (IH _ Hw), string_app_assoc. done.
Qed.

(** Splitting undoes joining by single blanks. *)
Lemma split_join_tokens ws :
  Forall is_token ws -> whitespace_split (PyStr.join " " ws) = ws.
Proof.
  unfold whitespace_split, PyStr.join.
  induction 1 as [|w ws [Hne Hw] Hws IH]; [done|].
  destruct ws as [|w' ws].
  - change (String.concat " " [w]) with w.
    rewrite <- (string_app_empty_r w) at 1.
    rewrite (split_from_word _ _ _ Hw).
    change ("" ++ w)%string with w. cbn [split_from].
    by destruct (decide (w = "")).
  - change (String.concat " " (w :: w' :: ws))
      with (w ++ String " " (String.concat " " (w' :: ws)))%string.
    rewrite (split_from_word _ _ _ Hw).
    change ("" ++ w)%string with w.
    cbn [split_from]. change (is_blank " ") with true. cbn match.
    destruct (decide (w = "")); [done|]. by rewrite IH.
Qed.

Lemma split_join ws :
  Forall PyStr.lower_word ws -> whitespace_split (PyStr.join " " ws) = ws.
Proof.
  intros Hws. apply split_join_tokens.
  eapply Forall_impl; [exact Hws|]. apply lower_word_token.
Qed.

(** Every piece the split cuts out is a token. *)
Lemma split_from_tokens s cur :
  PyStr.all_chars (fun c => negb (is_blank c)) cur = true ->
  Forall is_token (split_from cur s).
Proof.
  revert cur. induction s as [|c s IH]; intros cur Hcur.
  - cbn [split_from]. destruct (decide (cur = "")); [done|].
    by repeat constructor.
  - cbn [split_from]. destruct (is_blank c) eqn:Hb.
    + destruct (decide (cur = "")); [by apply IH|].
      constructor; [by split|]. by apply IH.
    + apply IH. rewrite all_chars_app, Hcur. cbn [PyStr.all_chars].
      by rewrite Hb.
Qed.

Lemma whitespace_split_tokens s : Forall is_token (whitespace_split s).
Proof. by apply split_from_tokens. Qed.

(** Every token cut out of lower-case text is a word. *)
Lemma split_from_words s cur :
  PyStr.all_chars PyStr.is_lower cur = true ->
  PyStr.lower_text s ->
  Forall PyStr.lower_word (split_from cur s).
Proof.
  unfold PyStr.lower_text.
  revert cur. induction s as [|c s IH]; intros cur Hcur.
  - intros _. cbn [split_from]. destruct (decide (cur = "")); [done|].
    by repeat constructor.
  - cbn [PyStr.all_chars split_from]. intros [Hc Hs]%andb_prop.
    destruct (is_blank c) eqn:Hb.
    + destruct (decide (cur = "")); [by apply IH|].
      constructor; [by split|]. by apply IH.
    + apply IH; [|done].
      rewrite all_chars_app, Hcur. cbn [PyStr.all_chars].
      by rewrite (lower_or_space_blank c Hc Hb).
Qed.

Lemma whitespace_split_words s :
  PyStr.lower_text s -> Forall PyStr.lower_word (whitespace_split s).
Proof. by apply split_from_words. Qed.

End SplitFacts.

(** ** The text normalizer *)

Section NormalizerFacts.

Variable R : Resources.

Lemma filter_all_kept {A} (P : A -> Prop) `{!forall x, Decision (P x)} (l : list A) :
  Forall P l -> filter P l = l.
Proof.
  induction 1 as [|x l Hx Hl IH]; [done|].
  rewrite filter_cons_True by done. by rewrite IH.
Qed.

Lemma map_all_fixed {A} (f : A -> A) (l : list A) :
  Forall (fun x => f x = x) l -> map f l = l.
Proof. induction 1 as [|x l Hx Hl IH]; simpl; [done|]. by rewrite Hx, IH. Qed.

Lemma filter_keeps_Forall {A} (P Q : A -> Prop) `{!forall x, Decision (P x)}
    (l : list A) :
  Forall Q l -> Forall Q (filter P l).
Proof.
  rewrite !Forall_forall. intros HQ x [_ Hx]%list_elem_of_filter. by apply HQ.
Qed.

End NormalizerFacts.

(** A run of the seven steps on the example instance: the URL and the tag
    go first, then punctuation and case, then the stop words. *)
Example pipeline_run :
  NLP_preprocessing_pipeline Examples.resources
    "See http://a.b/c?d <br />The Film, it's GOOD!!" = "see film good".
Proof. vm_compute; reflexivity. Qed.

(** C10.  For every input string the pipeline returns words of letters a-z
    joined by single blanks: the output is [" ".join(ws)] for a list [ws] of
    non-empty words made of a-z only, cutting the output at blanks gives
    back exactly [ws], and no other character occurs in it.  The tokenizer
    and the lemmatizer are outside the notebook; they are asked to return
    such words when they are given lower-case alphabetic text and words. *)
Theorem normalizer_output_words (R : Resources) :
  (forall s, PyStr.lower_text s -> Forall PyStr.lower_word (word_tokenize R s)) ->
  (forall w p, PyStr.lower_word w -> PyStr.lower_word (lemmatize R w p)) ->
  forall textual_sample : string,
  exists ws : list string,
    NLP_preprocessing_pipeline R textual_sample = PyStr.join " " ws
    /\ Forall PyStr.lower_word ws
    /\ whitespace_split (NLP_preprocessing_pipeline R textual_sample) = ws
    /\ PyStr.lower_text (NLP_preprocessing_pipeline R textual_sample).
Proof.
  intros Htok Hlem textual_sample.
  unfold NLP_preprocessing_pipeline.
  set (s4 := PyStr.lower (PyStr.re_sub_nonalpha
                            (get_text R (PyStr.re_sub_url textual_sample)))).
  set (ws := map _ (filter _ (word_tokenize R s4))).
  assert (Hws : Forall PyStr.lower_word ws).
  { subst ws. apply Forall_map.
    eapply Forall_impl; [|intros w Hw; apply Hlem, Hw].
    apply filter_keeps_Forall, Htok. subst s4. apply lower_text_normalized. }
  exists ws. split; [done|]. split; [done|]. split.
  - by apply split_join.
  - by apply join_lower_text.
Qed.

Lemma normalizer_output_words_witness :
  (forall s, PyStr.lower_text s ->
     Forall PyStr.lower_word (word_tokenize Examples.resources s))
  /\ (forall w p, PyStr.lower_word w ->
        PyStr.lower_word (lemmatize Examples.resources w p))
  /\ exists ws : list string,
       NLP_preprocessing_pipeline Examples.resources
         "<br />The Film, it's GOOD!!" = PyStr.join " " ws
       /\ Forall PyStr.lower_word ws
       /\ whitespace_split
            (NLP_preprocessing_pipeline Examples.resources
               "<br />The Film, it's GOOD!!") = ws
       /\ PyStr.lower_text
            (NLP_preprocessing_pipeline Examples.resources
               "<br />The Film, it's GOOD!!").
Proof.
  split; [exact whitespace_split_words|].
  split; [intros w p Hw; exact Hw|].
  apply (normalizer_output_words Examples.resources).
  - exact whitespace_split_words.
  - intros w p Hw; exact Hw.
Defined.

(** Whatever the resources, as long as they leave the word httpx alone (it
    is text without markup, one token, no stop word and its own lemma) and
    map the empty text to no token: the first pass yields httpx and the
    second pass yields the empty string. *)
Lemma url_word_lost_on_second_pass (R : Resources) :
  get_text R "HTTPX" = "HTTPX" ->
  word_tokenize R "httpx" = ["httpx"] ->
  "httpx" ∉ stopwords R ->
  lemmatize R "httpx" (get_wordnet_pos R "httpx") = "httpx" ->
  get_text R "" = "" ->
  word_tokenize R "" = [] ->
  NLP_preprocessing_pipeline R "HTTPX" = "httpx"
  /\ NLP_preprocessing_pipeline R "httpx" = "".
Proof.
  intros Hsoup Htok Hstop Hlem Hsoup0 Htok0.
  unfold NLP_preprocessing_pipeline. split.
  - change (PyStr.re_sub_url "HTTPX") with "HTTPX". rewrite Hsoup.
    change (PyStr.lower (PyStr.re_sub_nonalpha "HTTPX")) with "httpx".
    rewrite Htok, filter_cons_True, filter_nil by done.
    cbn [map]. by rewrite Hlem.
  - change (PyStr.re_sub_url "httpx") with "". rewrite Hsoup0.
    change (PyStr.lower (PyStr.re_sub_nonalpha "")) with "".
    by rewrite Htok0.
Qed.

(** C6, as stated, fails: the upper-case input HTTPX is normalized to the
    word httpx, which the first step of a second pass removes as a URL. *)
Lemma normalizer_not_idempotent :
  NLP_preprocessing_pipeline Examples.resources "HTTPX" = "httpx"
  /\ NLP_preprocessing_pipeline Examples.resources "httpx" = ""
  /\ NLP_preprocessing_pipeline Examples.resources
       (NLP_preprocessing_pipeline Examples.resources "HTTPX")
     <> NLP_preprocessing_pipeline Examples.resources "HTTPX".
Proof.
  split; [vm_compute; reflexivity|].
  split; [vm_compute; reflexivity|].
  vm_compute. discriminate.
Qed.

(** C6, amended.  Normalizing an already-normalized string is a no-op: if
    [s] is a list of words of letters a-z joined by single blanks, holds no
    match of [http\S+] and no markup, is tokenized into those words, and
    none of them is a stop word or differs from its lemma, then the pipeline
    returns [s]. *)
Theorem normalizer_fixed_point (R : Resources) (s : string) (ws : list string) :
  normalized R s ws -> NLP_preprocessing_pipeline R s = s.
Proof.
  intros (Hs & Hws & Hurl & Hsoup & Htok & Hstop & Hlem).
  assert (Htext : PyStr.lower_text s) by (rewrite Hs; by apply join_lower_text).
  unfold NLP_preprocessing_pipeline.
  rewrite (re_sub_url_fixed _ Hurl), Hsoup.
  rewrite (re_sub_nonalpha_fixed _ Htext), (lower_fixed _ Htext), Htok.
  rewrite (filter_all_kept _ _ Hstop), (map_all_fixed _ _ Hlem). done.
Qed.

Lemma normalizer_fixed_point_witness :
  normalized Examples.resources "film good" ["film"; "good"]
  /\ NLP_preprocessing_pipeline Examples.resources "film good" = "film good".
Proof.
  assert (H : normalized Examples.resources "film good" ["film"; "good"]).
  { unfold normalized.
    repeat split; try (vm_compute; reflexivity);
      repeat constructor; try discriminate; try (vm_compute; reflexivity);
      try (refine (bool_decide_unpack _ _); vm_compute; exact I). }
  split; [exact H|].
  exact (normalizer_fixed_point Examples.resources _ _ H).
Defined.

(** ** The vectorization layer *)

Local Open Scope list_scope.

Section VectorizerFacts.

Lemma token_index_absent (vocab : list string) t :
  t ∉ vocab -> token_index vocab t = None.
Proof.
  intros Hin. unfold token_index.
  assert (list_find (fun x => x = t) vocab = None) as ->; [|done].
  apply list_find_None, Forall_forall. intros x Hx ->. by apply Hin.
Qed.

Lemma token_index_present (vocab : list string) t :
  t ∈ vocab ->
  exists i, token_index vocab t = Some i /\ vocab !! i = Some t.
Proof.
  intros Hin. unfold token_index.
  destruct (list_find_elem_of (fun x => x = t) vocab t Hin eq_refl)
    as [[i x] Hfind].
  rewrite Hfind. exists i. split; [done|].
  apply list_find_Some in Hfind as (Hi & -> & _). done.
Qed.

Lemma length_pad_or_truncate L ids : length (pad_or_truncate L ids) = L.
Proof.
  unfold pad_or_truncate.
  rewrite length_take, length_app, length_replicate. lia.
Qed.

Lemma pad_or_truncate_short L ids :
  length ids <= L ->
  pad_or_truncate L ids = ids ++ replicate (L - length ids) PAD.
Proof.
  intros Hle. unfold pad_or_truncate. apply take_ge.
  rewrite length_app, length_replicate. lia.
Qed.

Lemma pad_or_truncate_long L ids :
  L <= length ids -> pad_or_truncate L ids = take L ids.
Proof.
  intros Hle. unfold pad_or_truncate.
  replace (L - length ids) with 0 by lia.
  cbn [replicate]. by rewrite app_nil_r.
Qed.

Lemma pad_or_truncate_map {A} (f : A -> nat) L (ts : list A) :
  pad_or_truncate L (map f ts)
  = map f (take L ts) ++ replicate (L - length ts) PAD.
Proof.
  unfold pad_or_truncate. rewrite length_map, take_app, firstn_map.
  f_equal. apply take_ge. rewrite length_map, length_replicate. lia.
Qed.

Lemma call_batch_layer ly docs : snd (call_batch ly docs) = ly.
Proof.
  induction docs as [|doc docs IH]; [done|].
  cbn [call_batch call]. destruct (call_batch ly docs) as [rest ly2].
  simpl in *. done.
Qed.

End VectorizerFacts.

(** The worked scenario: the vocabulary learned from one short document,
    its TokenIdSequence for L = 5 and the tokens materialized from it. *)
Example film_good_film_scenario :
  build_vocabulary 4 ["film good film"] = Examples.vocab4
  /\ vectorize Examples.vocab4 5 "film good film" = [2; 3; 2; 0; 0]
  /\ materialize Examples.vocab4 [2; 3; 2; 0; 0]
     = Some ["film"; "good"; "film"].
Proof. repeat split; vm_compute; reflexivity. Qed.

(** C2.  Whatever the training split and the document, the sequence the
    layer returns has exactly 100 entries: with at most 100 tokens it is the
    token indices followed by zeros, with 100 tokens or more it is the first
    100 token indices. *)
Theorem token_id_sequence_length (Xclean_train : list string) (doc : string) :
  let ly := vectorize_layer Xclean_train in
  let ids := map (lookup_index (get_vocabulary ly)) (whitespace_split doc) in
  let out := fst (call ly doc) in
  length out = 100
  /\ (length ids <= 100 -> out = ids ++ replicate (100 - length ids) PAD)
  /\ (100 <= length ids -> out = take 100 ids).
Proof.
  intros ly ids out.
  change out with (pad_or_truncate seq_length ids).
  change 100 with seq_length.
  split; [apply length_pad_or_truncate|].
  split; [apply pad_or_truncate_short|apply pad_or_truncate_long].
Qed.

(** C3.  The vocabulary of the notebook's layer is the one built from the
    training split, and calling the layer on documents of another split
    leaves the layer as it was: after any one document, and after any batch
    of documents, the vocabulary and the index of every token are what they
    were before the call. *)
Theorem no_vocabulary_leakage (Xclean_train Xclean_test : list string) :
  let ly := vectorize_layer Xclean_train in
  get_vocabulary ly = build_vocabulary vocab_size Xclean_train
  /\ (forall doc, snd (call ly doc) = ly)
  /\ get_vocabulary (snd (call_batch ly Xclean_test)) = get_vocabulary ly
  /\ (forall t, token_index (get_vocabulary (snd (call_batch ly Xclean_test))) t
                = token_index (get_vocabulary ly) t).
Proof.
  intros ly. split; [reflexivity|]. split; [reflexivity|].
  rewrite call_batch_layer. split; [reflexivity|]. reflexivity.
Qed.

(** C7.  Looking a token up never fails: a token that is not in the
    vocabulary has no position in it and is given the unknown index 1. *)
Theorem lookup_absent_is_unknown (vocab : list string) (t : string) :
  t ∉ vocab ->
  token_index vocab t = None /\ lookup_index vocab t = 1.
Proof.
  intros Hin. unfold lookup_index.
  rewrite (token_index_absent _ _ Hin). done.
Qed.

Lemma lookup_absent_is_unknown_witness :
  ("cinema" ∉ Examples.vocab4)
  /\ token_index Examples.vocab4 "cinema" = None
  /\ lookup_index Examples.vocab4 "cinema" = 1.
Proof.
  assert (H : "cinema" ∉ Examples.vocab4).
  { refine (bool_decide_unpack _ _). vm_compute. exact I. }
  split; [exact H|].
  exact (lookup_absent_is_unknown Examples.vocab4 "cinema" H).
Defined.

(** ** The materializer *)

Section MaterializerFacts.

Variable rest : list string.
Let vocab : list string := "" :: "[UNK]" :: rest.

Lemma lookup_index_reserved_pad : lookup_index vocab "" = 0.
Proof. reflexivity. Qed.

Lemma lookup_index_reserved_oov : lookup_index vocab "[UNK]" = 1.
Proof. reflexivity. Qed.

Lemma lookup_index_other t :
  t <> "" -> t <> "[UNK]" ->
  lookup_index vocab t = default 1 ((fun i => S (S i)) <$> token_index rest t).
Proof.
  intros H0 H1. unfold lookup_index, token_index, vocab.
  cbn [list_find]. rewrite !decide_False by done.
  destruct (list_find (fun x => x = t) rest) as [[i x]|]; reflexivity.
Qed.

(** What an emitted token is looked up to, and back. *)
Lemma lookup_index_emitted t :
  emitted rest t ->
  2 <= lookup_index vocab t /\ vocab !! lookup_index vocab t = Some t.
Proof.
  intros [Hin Hres].
  assert (t <> "" /\ t <> "[UNK]") as [H0 H1].
  { split; intros ->; apply Hres; repeat constructor. }
  rewrite (lookup_index_other _ H0 H1).
  destruct (token_index_present rest t Hin) as (i & -> & Hi).
  simpl. split; [lia|done].
Qed.

(** Any other token is looked up to a reserved index. *)
Lemma lookup_index_not_emitted t :
  ~ emitted rest t ->
  exists r, vocab !! lookup_index vocab t = Some r
            /\ r ∈ [""; "[UNK]"] /\ lookup_index vocab t <= 1.
Proof.
  intros Hne.
  destruct (decide (t = "")) as [->|H0].
  { exists "". rewrite lookup_index_reserved_pad. split; [done|].
    split; [repeat constructor|lia]. }
  destruct (decide (t = "[UNK]")) as [->|H1].
  { exists "[UNK]". rewrite lookup_index_reserved_oov. split; [done|].
    split; [repeat constructor|lia]. }
  assert (t ∉ rest) as Hin.
  { intros Hin. apply Hne. split; [done|].
    rewrite !elem_of_cons, elem_of_nil. tauto. }
  rewrite (lookup_index_other _ H0 H1), (token_index_absent _ _ Hin).
  exists "[UNK]". simpl. split; [done|]. split; [repeat constructor|lia].
Qed.

Lemma materialize_padding k : materialize vocab (replicate k PAD) = Some [].
Proof. induction k as [|k IH]; [done|]. simpl. by rewrite IH. Qed.

Lemma real_indices_padding k : real_indices (replicate k PAD) = [].
Proof.
  induction k as [|k IH]; [done|]. unfold real_indices in *. simpl.
  rewrite filter_cons_False; [done|]. unfold PAD. intros [? _]. done.
Qed.

(** The materializer on an encoded token list gives the emitted tokens. *)
Lemma materialize_encoded ts k :
  materialize vocab (map (lookup_index vocab) ts ++ replicate k PAD)
  = Some (filter (emitted rest) ts).
Proof.
  induction ts as [|t ts IH]; [apply materialize_padding|].
  cbn [map app materialize]. rewrite IH.
  destruct (decide (emitted rest t)) as [He|Hne].
  - destruct (lookup_index_emitted t He) as [_ ->]. simpl.
    destruct He as [Hin Hres]. rewrite decide_False by done.
    rewrite filter_cons_True by (by split). done.
  - destruct (lookup_index_not_emitted t Hne) as (r & -> & Hr & _). simpl.
    rewrite decide_True by done. by rewrite filter_cons_False.
Qed.

(** The real indices of an encoded token list are those of the emitted
    tokens. *)
Lemma real_indices_encoded ts k :
  real_indices (map (lookup_index vocab) ts ++ replicate k PAD)
  = map (lookup_index vocab) (filter (emitted rest) ts).
Proof.
  induction ts as [|t ts IH]; [apply real_indices_padding|].
  unfold real_indices in *. cbn [map app].
  destruct (decide (emitted rest t)) as [He|Hne].
  - destruct (lookup_index_emitted t He) as [Hge _].
    rewrite filter_cons_True by (unfold PAD, UNK; lia).
    rewrite (filter_cons_True (emitted rest)) by done. cbn [map]. by rewrite IH.
  - destruct (lookup_index_not_emitted t Hne) as (r & _ & _ & Hle).
    rewrite filter_cons_False by (unfold PAD, UNK; lia).
    by rewrite (filter_cons_False (emitted rest)).
Qed.

End MaterializerFacts.

(** C4.  Under a vocabulary that starts with the two reserved markers, the
    sequence the layer produces for a document can always be materialized;
    looking the materialized tokens up again gives exactly the indices of
    the sequence other than 0 and 1, in the same order, and so does running
    the layer on the tokens joined by blanks. *)
Theorem materialize_round_trip (rest : list string) (L : nat) (doc : string) :
  let vocab := "" :: "[UNK]" :: rest in
  let ids := vectorize vocab L doc in
  exists toks : list string,
    materialize vocab ids = Some toks
    /\ map (lookup_index vocab) toks = real_indices ids
    /\ real_indices (vectorize vocab L (PyStr.join " " toks)) = real_indices ids.
Proof.
  intros vocab ids. subst vocab.
  set (ts := take L (whitespace_split doc)).
  assert (Hids : ids = map (lookup_index ("" :: "[UNK]" :: rest)) ts
                       ++ replicate (L - length (whitespace_split doc)) PAD).
  { subst ids ts. unfold vectorize. apply pad_or_truncate_map. }
  exists (filter (emitted rest) ts).
  rewrite Hids, materialize_encoded, real_indices_encoded.
  split; [done|]. split; [done|].
  assert (Htok : Forall is_token (filter (emitted rest) ts)).
  { apply filter_keeps_Forall. subst ts.
    apply Forall_take, whitespace_split_tokens. }
  assert (Hlen : length (filter (emitted rest) ts) <= L).
  { etrans; [apply length_filter|]. subst ts. rewrite length_take. lia. }
  unfold vectorize. rewrite (split_join_tokens _ Htok).
  rewrite pad_or_truncate_map, real_indices_encoded.
  rewrite (take_ge _ _ Hlen). f_equal.
  apply filter_all_kept, Forall_forall.
  by intros t [Ht _]%list_elem_of_filter.
Qed.

(** ** The assembler loop *)

Section AssemblerFacts.

Context {vec : Type}.
Variable vocab : list string.
Variables wv_cbow wv_skipgram : gmap string vec.
Variables W_cbow W_skipgram : list vec.

(** One iteration appends, to each list, the row the rule prescribes. *)
Lemma loop_body_rows ec es i :
  loop_body vocab wv_cbow wv_skipgram W_cbow W_skipgram (ec, es) i
  = c ← rule_row vocab wv_cbow W_cbow i;
    s ← rule_row vocab wv_skipgram W_skipgram i;
    Some (ec ++ [c], es ++ [s]).
Proof.
  unfold loop_body, rule_row.
  destruct (decide (1 < i)); [|done].
  destruct (vocab !! i) as [tok|]; [done|done].
Qed.

(** The loop is a row-by-row map of the rule, on both lists at once. *)
Lemma for_each_rows idxs ec es :
  for_each vocab wv_cbow wv_skipgram W_cbow W_skipgram idxs (ec, es)
  = rc ← mapM (rule_row vocab wv_cbow W_cbow) idxs;
    rs ← mapM (rule_row vocab wv_skipgram W_skipgram) idxs;
    Some (ec ++ rc, es ++ rs).
Proof.
  revert ec es. induction idxs as [|i idxs IH]; intros ec es.
  - simpl. by rewrite !app_nil_r.
  - cbn [for_each]. rewrite loop_body_rows. cbn [mapM].
    destruct (rule_row vocab wv_cbow W_cbow i) as [c|]; [|done].
    destruct (rule_row vocab wv_skipgram W_skipgram i) as [s|]; simpl.
    + rewrite IH.
      destruct (mapM (rule_row vocab wv_cbow W_cbow) idxs) as [rc|]; [|done].
      destruct (mapM (rule_row vocab wv_skipgram W_skipgram) idxs) as [rs|];
        simpl; [|done].
      by rewrite <- !app_assoc.
    + by destruct (mapM (rule_row vocab wv_cbow W_cbow) idxs).
Qed.

(** With a default matrix that has a row for every vocabulary index, the
    rule gives a row at each of them. *)
Lemma rule_row_is_Some (wv : gmap string vec) (W : list vec) i :
  length vocab <= length W -> i < length vocab ->
  is_Some (rule_row vocab wv W i).
Proof.
  intros HW Hi. unfold rule_row, trained_or_unk.
  destruct (decide (1 < i)).
  - destruct (lookup_lt_is_Some_2 vocab i Hi) as [tok ->]. simpl.
    destruct (wv !! tok); [done|].
    apply lookup_lt_is_Some_2. lia.
  - apply lookup_lt_is_Some_2. lia.
Qed.

Lemma rule_rows_table (wv : gmap string vec) (W : list vec) :
  length vocab <= length W ->
  exists rows,
    mapM (rule_row vocab wv W) (seq 0 (length vocab)) = Some rows
    /\ length rows = length vocab
    /\ forall i, i < length vocab -> rows !! i = rule_row vocab wv W i.
Proof.
  intros HW.
  destruct (mapM_is_Some_2 (rule_row vocab wv W) (seq 0 (length vocab)))
    as [rows Hrows].
  { apply Forall_forall. intros i [_ Hi]%elem_of_seq.
    apply rule_row_is_Some; [done|lia]. }
  exists rows. split; [done|].
  pose proof (length_mapM _ _ _ Hrows) as Hlen. rewrite length_seq in Hlen.
  split; [done|].
  intros i Hi. apply mapM_Some_1 in Hrows.
  destruct (Forall2_lookup_l _ _ _ i i Hrows) as (r & Hr & Hrule).
  { by apply lookup_seq_lt. }
  by rewrite Hr, Hrule.
Qed.

(** The assembled tables: both exist, have one row for every vocabulary
    index, and follow the rule row by row. *)
Lemma fill_embeddings_table :
  length vocab <= length W_cbow -> length vocab <= length W_skipgram ->
  exists tc ts,
    fill_embeddings vocab wv_cbow wv_skipgram W_cbow W_skipgram = Some (tc, ts)
    /\ length tc = length vocab /\ length ts = length vocab
    /\ forall i, i < length vocab ->
         tc !! i = rule_row vocab wv_cbow W_cbow i
         /\ ts !! i = rule_row vocab wv_skipgram W_skipgram i.
Proof.
  intros Hc Hs. unfold fill_embeddings. rewrite for_each_rows.
  destruct (rule_rows_table wv_cbow W_cbow Hc) as (tc & -> & Hlc & Hrc).
  destruct (rule_rows_table wv_skipgram W_skipgram Hs) as (ts & -> & Hls & Hrs).
  exists tc, ts. simpl. split; [done|]. split; [done|]. split; [done|].
  intros i Hi. split; [by apply Hrc|by apply Hrs].
Qed.

End AssemblerFacts.

(** C1.  When the default matrices have a row for every vocabulary index,
    the loop produces both tables, and at every vocabulary index [i]: for
    [i] equal to 0 or 1 the row is the default row [i]; for [i] above 1 it is
    the trained vector of [vocab[i]] when there is one, and the default row
    1 otherwise.  With the vocabulary ["", "[UNK]", "film", "good"], the
    trained mapping {"good": [0.1, 0.2]} and the fallback row [0.0, 0.0],
    the table is [default0, fallback, fallback, [0.1, 0.2]]. *)
Theorem assembler_rule {vec : Type} (vocab : list string)
    (wv_cbow wv_skipgram : gmap string vec) (W_cbow W_skipgram : list vec) :
  length vocab <= length W_cbow ->
  length vocab <= length W_skipgram ->
  (exists tc ts,
     fill_embeddings vocab wv_cbow wv_skipgram W_cbow W_skipgram = Some (tc, ts)
     /\ forall i tok, vocab !! i = Some tok ->
          (i <= 1 -> tc !! i = W_cbow !! i /\ ts !! i = W_skipgram !! i)
          /\ (1 < i ->
                (forall v, wv_cbow !! tok = Some v -> tc !! i = Some v)
                /\ (wv_cbow !! tok = None -> tc !! i = W_cbow !! 1)
                /\ (forall v, wv_skipgram !! tok = Some v -> ts !! i = Some v)
                /\ (wv_skipgram !! tok = None -> ts !! i = W_skipgram !! 1)))
  /\ (forall default0 d2 d3 : list Q,
        let fallback := [0%Q; 0%Q] in
        let W := [default0; fallback; d2; d3] in
        fill_embeddings Examples.vocab4 Examples.trained_good
          Examples.trained_good W W
        = Some ([default0; fallback; fallback; [(1 # 10)%Q; (2 # 10)%Q]],
                [default0; fallback; fallback; [(1 # 10)%Q; (2 # 10)%Q]])).
Proof.
  intros Hc Hs. split; [|intros default0 d2 d3; vm_compute; reflexivity].
  destruct (fill_embeddings_table vocab wv_cbow wv_skipgram W_cbow W_skipgram
              Hc Hs) as (tc & ts & Hfill & _ & _ & Hrows).
  exists tc, ts. split; [done|].
  intros i tok Htok.
  destruct (Hrows i (lookup_lt_Some _ _ _ Htok)) as [-> ->].
  unfold rule_row, trained_or_unk. rewrite Htok. simpl.
  split.
  - intros Hi. rewrite !decide_False by lia. done.
  - intros Hi. rewrite !decide_True by done.
    split_and!; try (by intros v ->); by intros ->.
Qed.

Lemma assembler_rule_witness :
  let vocab := Examples.vocab4 in
  let wv := Examples.trained_good in
  let W := [[(7 # 10)%Q; (3 # 10)%Q]; [0%Q; 0%Q]; [1%Q; 1%Q]; [2%Q; 2%Q]] in
  length vocab <= length W
  /\ exists tc ts,
       fill_embeddings vocab wv wv W W = Some (tc, ts)
       /\ forall i tok, vocab !! i = Some tok ->
            (i <= 1 -> tc !! i = W !! i /\ ts !! i = W !! i)
            /\ (1 < i ->
                  (forall v, wv !! tok = Some v -> tc !! i = Some v)
                  /\ (wv !! tok = None -> tc !! i = W !! 1)
                  /\ (forall v, wv !! tok = Some v -> ts !! i = Some v)
                  /\ (wv !! tok = None -> ts !! i = W !! 1)).
Proof.
  intros vocab wv W.
  assert (H : length vocab <= length W) by (simpl; lia).
  split; [exact H|].
  exact (proj1 (assembler_rule vocab wv wv W W H H)).
Defined.

(** C9.  In each of the two tables, every row at an index above 1 whose
    token has no trained vector is row 1 of that same table, which is the
    default row 1; hence any two such rows of one table are equal. *)
Theorem fallback_rows_are_row_one {vec : Type} (vocab : list string)
    (wv_cbow wv_skipgram : gmap string vec) (W_cbow W_skipgram : list vec) :
  length vocab <= length W_cbow ->
  length vocab <= length W_skipgram ->
  exists tc ts,
    fill_embeddings vocab wv_cbow wv_skipgram W_cbow W_skipgram = Some (tc, ts)
    /\ (forall i tok, 1 < i -> vocab !! i = Some tok -> wv_cbow !! tok = None ->
          is_Some (tc !! i) /\ tc !! i = tc !! 1 /\ tc !! 1 = W_cbow !! 1)
    /\ (forall i tok, 1 < i -> vocab !! i = Some tok -> wv_skipgram !! tok = None ->
          is_Some (ts !! i) /\ ts !! i = ts !! 1 /\ ts !! 1 = W_skipgram !! 1)
    /\ (forall i j tok_i tok_j,
          1 < i -> vocab !! i = Some tok_i -> wv_cbow !! tok_i = None ->
          1 < j -> vocab !! j = Some tok_j -> wv_cbow !! tok_j = None ->
          tc !! i = tc !! j)
    /\ (forall i j tok_i tok_j,
          1 < i -> vocab !! i = Some tok_i -> wv_skipgram !! tok_i = None ->
          1 < j -> vocab !! j = Some tok_j -> wv_skipgram !! tok_j = None ->
          ts !! i = ts !! j).
Proof.
  intros Hc Hs.
  destruct (fill_embeddings_table vocab wv_cbow wv_skipgram W_cbow W_skipgram
              Hc Hs) as (tc & ts & Hfill & Hlc & Hls & Hrows).
  assert (Hrow : forall i tok, 1 < i -> vocab !! i = Some tok ->
            (wv_cbow !! tok = None ->
               is_Some (tc !! i) /\ tc !! i = tc !! 1 /\ tc !! 1 = W_cbow !! 1)
            /\ (wv_skipgram !! tok = None ->
               is_Some (ts !! i) /\ ts !! i = ts !! 1 /\ ts !! 1 = W_skipgram !! 1)).
  { intros i tok Hi Htok.
    pose proof (lookup_lt_Some _ _ _ Htok) as Hlt.
    destruct (Hrows i Hlt) as [Hci Hsi].
    destruct (Hrows 1 ltac:(lia)) as [Hc1 Hs1].
    unfold rule_row, trained_or_unk in Hci, Hsi, Hc1, Hs1.
    rewrite Htok in Hci, Hsi. rewrite decide_True in Hci, Hsi by done.
    rewrite decide_False in Hc1, Hs1 by lia. simpl in Hci, Hsi.
    split; intros Hnone; rewrite Hnone in *.
    - split; [apply lookup_lt_is_Some_2; lia|]. by rewrite Hci, Hc1.
    - split; [apply lookup_lt_is_Some_2; lia|]. by rewrite Hsi, Hs1. }
  exists tc, ts. split; [done|].
  split_and!.
  - intros i tok Hi Htok. by apply (Hrow i tok).
  - intros i tok Hi Htok. by apply (Hrow i tok).
  - intros i j ti tj Hi Hti Hni Hj Htj Hnj.
    destruct (proj1 (Hrow i ti Hi Hti) Hni) as (_ & -> & _).
    by destruct (proj1 (Hrow j tj Hj Htj) Hnj) as (_ & -> & _).
  - intros i j ti tj Hi Hti Hni Hj Htj Hnj.
    destruct (proj2 (Hrow i ti Hi Hti) Hni) as (_ & -> & _).
    by destruct (proj2 (Hrow j tj Hj Htj) Hnj) as (_ & -> & _).
Qed.

Lemma fallback_rows_are_row_one_witness :
  let vocab := Examples.vocab4 in
  let wv := Examples.trained_good in
  let W := [[(7 # 10)%Q; (3 # 10)%Q]; [0%Q; 0%Q]; [1%Q; 1%Q]; [2%Q; 2%Q]] in
  length vocab <= length W
  /\ exists tc ts,
       fill_embeddings vocab wv wv W W = Some (tc, ts)
       /\ (forall i tok, 1 < i -> vocab !! i = Some tok -> wv !! tok = None ->
             is_Some (tc !! i) /\ tc !! i = tc !! 1 /\ tc !! 1 = W !! 1)
       /\ (forall i tok, 1 < i -> vocab !! i = Some tok -> wv !! tok = None ->
             is_Some (ts !! i) /\ ts !! i = ts !! 1 /\ ts !! 1 = W !! 1)
       /\ (forall i j tok_i tok_j,
             1 < i -> vocab !! i = Some tok_i -> wv !! tok_i = None ->
             1 < j -> vocab !! j = Some tok_j -> wv !! tok_j = None ->
             tc !! i = tc !! j)
       /\ (forall i j tok_i tok_j,
             1 < i -> vocab !! i = Some tok_i -> wv !! tok_i = None ->
             1 < j -> vocab !! j = Some tok_j -> wv !! tok_j = None ->
             ts !! i = ts !! j).
Proof.
  intros vocab wv W.
  assert (H : length vocab <= length W) by (simpl; lia).
  split; [exact H|].
  exact (fallback_rows_are_row_one vocab wv wv W W H H).
Defined.

(** ** Size of the vocabulary and of the table *)

Section VocabularySize.

Lemma length_build_vocabulary V docs :
  length (build_vocabulary V docs)
  = 2 + min (V - 2)
          (length (remove_dups (concat (map whitespace_split docs)))).
Proof.
  unfold build_vocabulary. cbn [length]. rewrite length_take.
  by rewrite (Permutation_length (merge_sort_Permutation _ _)).
Qed.

Lemma build_vocabulary_reserved V docs :
  exists rest, build_vocabulary V docs = "" :: "[UNK]" :: rest.
Proof. unfold build_vocabulary. eauto. Qed.

End VocabularySize.

(** C5, as stated, fails: a training split with two distinct tokens gives a
    vocabulary of four entries, and the table assembled for it has four
    rows, not 15000; [set_weights] then rejects it. *)
Lemma table_rows_counterexample :
  get_vocabulary (vectorize_layer ["film good film"])
  = [""; "[UNK]"; "film"; "good"]
  /\ exists tc ts : list (list Q),
       fill_embeddings (get_vocabulary (vectorize_layer ["film good film"]))
         ∅ ∅
         (replicate vocab_size (replicate embeddings_dimension 0%Q))
         (replicate vocab_size (replicate embeddings_dimension 0%Q))
       = Some (tc, ts)
       /\ length tc = 4
       /\ length tc <> vocab_size
       /\ set_weights
            {| input_dim := vocab_size; output_dim := embeddings_dimension;
               weights := replicate vocab_size
                            (replicate embeddings_dimension 0%Q) |} tc
          = None.
Proof.
  split; [vm_compute; reflexivity|].
  exists (replicate 4 (replicate embeddings_dimension 0%Q)),
         (replicate 4 (replicate embeddings_dimension 0%Q)).
  split; [vm_compute; reflexivity|].
  split; [reflexivity|].
  split; [vm_compute; lia|].
  vm_compute. reflexivity.
Qed.

(** C5, amended.  For every training split the assembled tables have
    exactly as many rows as the learned vocabulary, which is the smaller of
    V = 15000 and 2 plus the number of distinct training tokens.  A table
    has V rows exactly when the split has at least V - 2 distinct tokens,
    and that is exactly when [set_weights] accepts it. *)
Theorem table_rows_follow_vocabulary {vec : Type} (Xclean_train : list string)
    (wv_cbow wv_skipgram : gmap string vec)
    (embedding_layer_cbow embedding_layer_skipgram : Embedding vec) :
  input_dim embedding_layer_cbow = vocab_size ->
  length (weights embedding_layer_cbow) = vocab_size ->
  input_dim embedding_layer_skipgram = vocab_size ->
  length (weights embedding_layer_skipgram) = vocab_size ->
  let vocab := get_vocabulary (vectorize_layer Xclean_train) in
  let distinct :=
    length (remove_dups (concat (map whitespace_split Xclean_train))) in
  exists tc ts,
    fill_embeddings vocab wv_cbow wv_skipgram
      (weights embedding_layer_cbow) (weights embedding_layer_skipgram)
    = Some (tc, ts)
    /\ length tc = length vocab
    /\ length ts = length vocab
    /\ length vocab = min vocab_size (2 + distinct)
    /\ (length tc = vocab_size <-> vocab_size - 2 <= distinct)
    /\ (is_Some (set_weights embedding_layer_cbow tc)
        <-> vocab_size - 2 <= distinct)
    /\ (is_Some (set_weights embedding_layer_skipgram ts)
        <-> vocab_size - 2 <= distinct).
Proof.
  intros Hdc Hwc Hds Hws vocab distinct.
  assert (Hlen : length vocab = 2 + min (vocab_size - 2) distinct).
  { apply length_build_vocabulary. }
  assert (Hsize : 2 <= vocab_size) by (unfold vocab_size; lia).
  destruct (fill_embeddings_table vocab wv_cbow wv_skipgram
              (weights embedding_layer_cbow) (weights embedding_layer_skipgram))
    as (tc & ts & Hfill & Hlc & Hls & _); [lia|lia|].
  exists tc, ts. split; [done|]. split; [done|]. split; [done|].
  split; [lia|]. split; [lia|].
  unfold set_weights. rewrite Hdc, Hds.
  split.
  - destruct (decide (length tc = vocab_size)) as [He|Hne].
    + split; [lia|by eauto].
    + split; [by intros [? [=]]|lia].
  - destruct (decide (length ts = vocab_size)) as [He|Hne].
    + split; [lia|by eauto].
    + split; [by intros [? [=]]|lia].
Qed.

Lemma table_rows_follow_vocabulary_witness :
  let ly : Embedding (list Q) :=
    {| input_dim := vocab_size; output_dim := embeddings_dimension;
       weights := replicate vocab_size (replicate embeddings_dimension 0%Q) |} in
  let vocab := get_vocabulary (vectorize_layer ["film good film"]) in
  let distinct :=
    length (remove_dups (concat (map whitespace_split ["film good film"]))) in
  input_dim ly = vocab_size
  /\ length (weights ly) = vocab_size
  /\ exists tc ts,
       fill_embeddings vocab ∅ ∅ (weights ly) (weights ly) = Some (tc, ts)
       /\ length tc = length vocab
       /\ length ts = length vocab
       /\ length vocab = min vocab_size (2 + distinct)
       /\ (length tc = vocab_size <-> vocab_size - 2 <= distinct)
       /\ (is_Some (set_weights ly tc) <-> vocab_size - 2 <= distinct)
       /\ (is_Some (set_weights ly ts) <-> vocab_size - 2 <= distinct).
Proof.
  intros ly vocab distinct.
  assert (Hd : input_dim ly = vocab_size) by reflexivity.
  assert (Hw : length (weights ly) = vocab_size) by (vm_compute; reflexivity).
  split; [exact Hd|]. split; [exact Hw|].
  exact (table_rows_follow_vocabulary ["film good film"] ∅ ∅ ly ly Hd Hw Hd Hw).
Defined.

(** ** The decision threshold *)

(** C8.  A probability is given class 1 exactly when it is at least 0.5 and
    class 0 exactly when it is below 0.5; 0.5 itself is class 1 and 0.4999
    is class 0. *)
Theorem decision_threshold (p : Q) :
  (classify p = 1 <-> (1 # 2 <= p)%Q)
  /\ (classify p = 0 <-> (p < 1 # 2)%Q)
  /\ classify (1 # 2)%Q = 1
  /\ classify (4999 # 10000)%Q = 0.
Proof.
  unfold classify, threshold.
  destruct (Qle_bool (1 # 2) p) eqn:Hle.
  - apply Qle_bool_iff in Hle.
    split; [by split|]. split; [|by split].
    split; [done|]. intros Hlt. by apply Qlt_not_le in Hlt.
  - assert (Hnle : ~ (1 # 2 <= p)%Q).
    { intros H%Qle_bool_iff. by rewrite H in Hle. }
    split; [split; [done|by intros ?]|].
    split; [|by split].
    split; [|done]. intros _. by apply Qnot_le_lt.
Qed.

(** * Further properties of the notebook's code *)

(** ** URL removal, [re.sub("http\S+", "", s)] *)

Section UrlRemoval.

Import Scan.

Lemma url_match_here_shape s :
  PyStr.url_match_here s = starts_then_nonspace "http" s.
Proof.
  destruct s as [|c1 s]; [done|].
  destruct c1 as [[] [] [] [] [] [] [] []]; try reflexivity.
  destruct s as [|c2 s]; [done|].
  destruct c2 as [[] [] [] [] [] [] [] []]; try reflexivity.
  destruct s as [|c3 s]; [done|].
  destruct c3 as [[] [] [] [] [] [] [] []]; try reflexivity.
  destruct s as [|c4 s]; [done|].
  destruct c4 as [[] [] [] [] [] [] [] []]; reflexivity.
Qed.

Lemma space_not_letter a c :
  PyStr.isspace a = false -> PyStr.isspace c = true -> (a =? c)%char = false.
Proof.
  intros Ha Hc. destruct (Ascii.eqb_spec a c) as [->|]; [|done].
  by rewrite Ha in Hc.
Qed.

(** Inside a match the scan emits nothing until it meets whitespace. *)
Lemma re_sub_url_from_true_head s :
  PyStr.re_sub_url_from true s = ""
  \/ exists c t, PyStr.re_sub_url_from true s = String c t
                 /\ PyStr.isspace c = true.
Proof.
  induction s as [|c s IH]; [by left|].
  cbn [PyStr.re_sub_url_from]. destruct (PyStr.isspace c) eqn:Hc; [|done].
  right. eauto.
Qed.

Lemma starts_then_nonspace_blocked p t :
  PyStr.all_chars (fun c => negb (PyStr.isspace c)) p = true ->
  (t = "" \/ exists c t', t = String c t' /\ PyStr.isspace c = true) ->
  starts_then_nonspace p t = false.
Proof.
  intros Hp [->|(c & t' & -> & Hc)].
  - by destruct p.
  - destruct p as [|a p]; cbn [starts_then_nonspace].
    + by rewrite Hc.
    + cbn [PyStr.all_chars] in Hp.
      apply andb_prop in Hp as [Ha%negb_true_iff _].
      by rewrite (space_not_letter a c Ha Hc).
Qed.

(** A shape found at the head of the output was at the head of the input. *)
Lemma starts_then_nonspace_kept s p :
  PyStr.all_chars (fun c => negb (PyStr.isspace c)) p = true ->
  starts_then_nonspace p (PyStr.re_sub_url_from false s) = true ->
  starts_then_nonspace p s = true.
Proof.
  revert p. induction s as [|c s IH]; intros p Hp; [by destruct p|].
  cbn [PyStr.re_sub_url_from].
  destruct (PyStr.url_match_here (String c s)) eqn:Hm.
  - rewrite (starts_then_nonspace_blocked p _ Hp
               (re_sub_url_from_true_head s)). done.
  - destruct p as [|a p]; cbn [starts_then_nonspace]; [done|].
    cbn [PyStr.all_chars] in Hp. apply andb_prop in Hp as [_ Hp].
    intros [-> Hrest]%andb_prop. by rewrite (IH p Hp Hrest).
Qed.

Lemma url_match_here_kept c s :
  PyStr.url_match_here (String c (PyStr.re_sub_url_from false s)) = true ->
  PyStr.url_match_here (String c s) = true.
Proof.
  rewrite !url_match_here_shape.
  change (starts_then_nonspace "http" (String c ?t))
    with (("h" =? c)%char && starts_then_nonspace "ttp" t).
  intros [-> Hrest]%andb_prop.
  by rewrite (starts_then_nonspace_kept s "ttp" eq_refl Hrest).
Qed.

Lemma url_match_here_starts c s :
  PyStr.url_match_here (String c s) = true -> c = "h"%char.
Proof.
  rewrite url_match_here_shape.
  change (starts_then_nonspace "http" (String c s))
    with (("h" =? c)%char && starts_then_nonspace "ttp" s).
  intros [Hc _]%andb_prop. by destruct (Ascii.eqb_spec "h" c).
Qed.

Lemma url_match_here_space c s :
  PyStr.isspace c = true -> PyStr.url_match_here (String c s) = false.
Proof.
  intros Hc. destruct (PyStr.url_match_here (String c s)) eqn:Hm; [|done].
  apply url_match_here_starts in Hm. subst c. discriminate Hc.
Qed.

Lemma re_sub_url_from_no_match s :
  PyStr.has_url_match (PyStr.re_sub_url_from false s) = false
  /\ PyStr.has_url_match (PyStr.re_sub_url_from true s) = false.
Proof.
  induction s as [|c s [IHf IHt]]; [done|].
  cbn [PyStr.re_sub_url_from]. split.
  - destruct (PyStr.url_match_here (String c s)) eqn:Hm; [done|].
    cbn [PyStr.has_url_match]. rewrite IHf, orb_false_r.
    destruct (PyStr.url_match_here
                (String c (PyStr.re_sub_url_from false s))) eqn:Hm'; [|done].
    apply url_match_here_kept in Hm'. congruence.
  - destruct (PyStr.isspace c) eqn:Hc; [|done].
    cbn [PyStr.has_url_match].
    by rewrite IHf, orb_false_r, url_match_here_space.
Qed.

End UrlRemoval.

(** X1.  What [re.sub("http\S+", "", s)] returns holds no match of the
    pattern any more, so removing URLs a second time changes nothing, and
    the whole pipeline gives the same result on a text and on that text
    with its URLs already removed. *)
Theorem re_sub_url_idempotent (R : Resources) (s : string) :
  PyStr.has_url_match (PyStr.re_sub_url s) = false
  /\ PyStr.re_sub_url (PyStr.re_sub_url s) = PyStr.re_sub_url s
  /\ NLP_preprocessing_pipeline R (PyStr.re_sub_url s)
     = NLP_preprocessing_pipeline R s.
Proof.
  assert (H : PyStr.has_url_match (PyStr.re_sub_url s) = false)
    by apply re_sub_url_from_no_match.
  split; [exact H|]. split; [by apply re_sub_url_fixed|].
  unfold NLP_preprocessing_pipeline. by rewrite (re_sub_url_fixed _ H).
Qed.

Section UrlRemovalSize.

Import Scan.

Lemma re_sub_url_from_true_length s :
  String.length (PyStr.re_sub_url_from true s) <= String.length s
  /\ String.length (PyStr.re_sub_url_from false s) <= String.length s.
Proof.
  induction s as [|c s [IHt IHf]]; [done|].
  cbn [PyStr.re_sub_url_from]. split.
  - destruct (PyStr.isspace c); cbn [String.length]; lia.
  - destruct (PyStr.url_match_here (String c s)); cbn [String.length]; lia.
Qed.

(** A run that starts with [p] and one more non-space character is skipped
    whole once the scan is inside a match. *)
Lemma re_sub_url_from_true_skips p t :
  PyStr.all_chars (fun c => negb (PyStr.isspace c)) p = true ->
  starts_then_nonspace p t = true ->
  String.length (PyStr.re_sub_url_from true t) + String.length p + 1
  <= String.length t.
Proof.
  revert t. induction p as [|a p IH]; intros [|c t] Hp Hs; try done.
  - cbn [starts_then_nonspace] in Hs. apply negb_true_iff in Hs.
    cbn [PyStr.re_sub_url_from String.length]. rewrite Hs.
    pose proof (proj1 (re_sub_url_from_true_length t)). lia.
  - cbn [starts_then_nonspace] in Hs. cbn [PyStr.all_chars] in Hp.
    apply andb_prop in Hp as [Ha%negb_true_iff Hp].
    apply andb_prop in Hs as [Hac Hs].
    destruct (Ascii.eqb_spec a c) as [<-|]; [|done].
    cbn [PyStr.re_sub_url_from String.length]. rewrite Ha.
    pose proof (IH t Hp Hs). lia.
Qed.

Lemma re_sub_url_from_shrinks s :
  PyStr.has_url_match s = true ->
  String.length (PyStr.re_sub_url_from false s) + 5 <= String.length s.
Proof.
  induction s as [|c s IH]; [done|].
  cbn [PyStr.has_url_match PyStr.re_sub_url_from].
  destruct (PyStr.url_match_here (String c s)) eqn:Hm.
  - intros _. rewrite url_match_here_shape in Hm.
    change (starts_then_nonspace "http" (String c s))
      with (("h" =? c)%char && starts_then_nonspace "ttp" s) in Hm.
    apply andb_prop in Hm as [_ Hm].
    pose proof (re_sub_url_from_true_skips "ttp" s eq_refl Hm) as Hlen.
    cbn [String.length] in *. lia.
  - rewrite orb_false_l. intros Hs. specialize (IH Hs).
    cbn [String.length]. lia.
Qed.

Lemma re_sub_url_from_whitespace s :
  whitespace_of (PyStr.re_sub_url_from true s) = whitespace_of s
  /\ whitespace_of (PyStr.re_sub_url_from false s) = whitespace_of s.
Proof.
  unfold whitespace_of, chars.
  induction s as [|c s [IHt IHf]]; [done|].
  cbn [PyStr.re_sub_url_from]. split.
  - destruct (PyStr.isspace c) eqn:Hc;
      cbn [list_ascii_of_string List.filter]; rewrite Hc; [by f_equal|done].
  - destruct (PyStr.url_match_here (String c s)) eqn:Hm.
    + apply url_match_here_starts in Hm. subst c.
      cbn [list_ascii_of_string List.filter].
      change (PyStr.isspace "h") with false. done.
    + cbn [list_ascii_of_string List.filter].
      destruct (PyStr.isspace c); [by f_equal|done].
Qed.

Lemma re_sub_url_from_sublist s :
  chars (PyStr.re_sub_url_from true s) `sublist_of` chars s
  /\ chars (PyStr.re_sub_url_from false s) `sublist_of` chars s.
Proof.
  unfold chars.
  induction s as [|c s [IHt IHf]]; [done|].
  cbn [PyStr.re_sub_url_from]. split.
  - destruct (PyStr.isspace c); cbn [list_ascii_of_string];
      [by apply sublist_skip|by apply sublist_cons].
  - destruct (PyStr.url_match_here (String c s)); cbn [list_ascii_of_string];
      [by apply sublist_cons|by apply sublist_skip].
Qed.

Lemma starts_then_nonspace_app_space p t w b :
  PyStr.all_chars (fun c => negb (PyStr.isspace c)) p = true ->
  PyStr.isspace w = true ->
  starts_then_nonspace p (t ++ String w b) = starts_then_nonspace p t.
Proof.
  intros Hp Hw. revert t Hp.
  induction p as [|a p IH]; intros [|c t] Hp; rewrite ?string_app_cons;
    cbn [starts_then_nonspace].
  - change ("" ++ String w b)%string with (String w b).
    cbn [starts_then_nonspace]. by rewrite Hw.
  - done.
  - change ("" ++ String w b)%string with (String w b).
    cbn [starts_then_nonspace]. cbn [PyStr.all_chars] in Hp.
    apply andb_prop in Hp as [Ha%negb_true_iff _].
    by rewrite (space_not_letter a w Ha Hw).
  - cbn [PyStr.all_chars] in Hp. apply andb_prop in Hp as [_ Hp].
    by rewrite (IH t Hp).
Qed.

Lemma re_sub_url_from_app_space m a w b :
  PyStr.isspace w = true ->
  PyStr.re_sub_url_from m (a ++ String w b)
  = (PyStr.re_sub_url_from m a ++ String w (PyStr.re_sub_url_from false b))%string.
Proof.
  intros Hw. revert m. induction a as [|c a IH]; intros m.
  - change ("" ++ String w b)%string with (String w b).
    cbn [PyStr.re_sub_url_from]. rewrite Hw, (url_match_here_space w b Hw).
    by destruct m.
  - rewrite string_app_cons. cbn [PyStr.re_sub_url_from].
    rewrite <- string_app_cons, !url_match_here_shape.
    rewrite (starts_then_nonspace_app_space "http" (String c a) w b eq_refl Hw).
    rewrite !IH.
    destruct m; [destruct (PyStr.isspace c)|
                 destruct (starts_then_nonspace "http" (String c a))];
      by rewrite ?string_app_cons.
Qed.

End UrlRemovalSize.

(** X2.  URL removal returns its argument unchanged exactly when the
    argument holds no match of [http\S+]; it never makes a text longer, and
    when there is a match the result is at least five characters shorter. *)
Theorem re_sub_url_fixed_iff (s : string) :
  String.length (PyStr.re_sub_url s) <= String.length s
  /\ (PyStr.re_sub_url s = s <-> PyStr.has_url_match s = false)
  /\ (PyStr.has_url_match s = true ->
      String.length (PyStr.re_sub_url s) + 5 <= String.length s).
Proof.
  split; [apply re_sub_url_from_true_length|].
  split; [|apply re_sub_url_from_shrinks].
  split; [|apply re_sub_url_fixed].
  intros Heq. destruct (PyStr.has_url_match s) eqn:Hm; [|done].
  pose proof (re_sub_url_from_shrinks s Hm) as Hlen.
  unfold PyStr.re_sub_url in Heq. rewrite Heq in Hlen. lia.
Qed.

(** X3.  URL removal only deletes characters, and never a whitespace
    character: the result is a subsequence of the text and has exactly the
    whitespace of the text, in the same order. *)
Theorem re_sub_url_keeps_whitespace (s : string) :
  Scan.chars (PyStr.re_sub_url s) `sublist_of` Scan.chars s
  /\ Scan.whitespace_of (PyStr.re_sub_url s) = Scan.whitespace_of s.
Proof.
  split; [apply re_sub_url_from_sublist|apply re_sub_url_from_whitespace].
Qed.

(** X4.  URL removal works on each stretch between whitespace characters on
    its own: the result for a text cut at a whitespace character is the
    result for the part before it, that character, and the result for the
    part after it. *)
Theorem re_sub_url_per_word (a : string) (w : ascii) (b : string) :
  PyStr.isspace w = true ->
  PyStr.re_sub_url (a ++ String w b)
  = (PyStr.re_sub_url a ++ String w (PyStr.re_sub_url b))%string.
Proof. intros Hw. by apply re_sub_url_from_app_space. Qed.

Lemma re_sub_url_per_word_witness :
  PyStr.isspace " " = true
  /\ PyStr.re_sub_url ("see http://a.b/c" ++ String " " "now")
     = (PyStr.re_sub_url "see http://a.b/c"
        ++ String " " (PyStr.re_sub_url "now"))%string.
Proof.
  split; [reflexivity|].
  apply (re_sub_url_per_word "see http://a.b/c" " " "now"). reflexivity.
Defined.

(** X5.  The URL pattern is case-sensitive: a text without a lower-case h
    (an upper-case URL, for one) goes through URL removal unchanged. *)
Theorem re_sub_url_case_sensitive (s : string) :
  PyStr.all_chars (fun c => negb (c =? "h")%char) s = true ->
  PyStr.re_sub_url s = s.
Proof.
  intros Hs. apply re_sub_url_fixed.
  induction s as [|c s IH]; [done|].
  cbn [PyStr.all_chars] in Hs. apply andb_prop in Hs as [Hc Hs].
  cbn [PyStr.has_url_match]. rewrite (IH Hs), orb_false_r.
  destruct (PyStr.url_match_here (String c s)) eqn:Hm; [|done].
  apply url_match_here_starts in Hm. subst c. discriminate Hc.
Qed.

Lemma re_sub_url_case_sensitive_witness :
  PyStr.all_chars (fun c => negb (c =? "h")%char) "SEE HTTP://A.B/C NOW" = true
  /\ PyStr.re_sub_url "SEE HTTP://A.B/C NOW" = "SEE HTTP://A.B/C NOW".
Proof.
  split; [reflexivity|].
  apply (re_sub_url_case_sensitive "SEE HTTP://A.B/C NOW"). reflexivity.
Defined.

(** ** Character cleaning, steps 3 and 4 *)

Section CharacterCleaning.



End CharacterCleaning.


(** ** The part-of-speech mapping *)

(** X7.  [get_wordnet_pos] looks at the first character of the tag only and
    ignores its case: J gives the adjective, V the verb, R the adverb, and
    every other character - N, but also any tag the dictionary does not
    know - the noun. *)
Theorem get_wordnet_pos_first_char (R : Resources) (word : string) :
  let c := fst (pos_tag R word) in
  get_wordnet_pos R word
  = if ((c =? "J") || (c =? "j"))%char then ADJ
    else if ((c =? "V") || (c =? "v"))%char then VERB
    else if ((c =? "R") || (c =? "r"))%char then ADV
    else NOUN.
Proof.
  unfold get_wordnet_pos. destruct (fst (pos_tag R word)) as [[] [] [] [] [] [] [] []];
    vm_compute; reflexivity.
Qed.

(** ** The materializer, on any sequence of indices *)

Section MaterializerAnySequence.

Variable vocab : list string.

Lemma materialize_cons_Some w rev toks :
  materialize vocab (w :: rev) = Some toks ->
  exists t rest,
    vocab !! w = Some t /\ materialize vocab rev = Some rest
    /\ toks = if decide (t ∈ [""; "[UNK]"]) then rest else t :: rest.
Proof.
  cbn [materialize]. destruct (vocab !! w) as [t|]; [|done]. simpl.
  destruct (materialize vocab rev) as [rest|]; [|done]. simpl.
  intros [= <-]. eauto.
Qed.

Lemma materialize_is_Some rev :
  is_Some (materialize vocab rev) <-> Forall (fun w => w < length vocab) rev.
Proof.
  induction rev as [|w rev IH].
  - split; [constructor|by eexists].
  - rewrite Forall_cons, <- IH, <- lookup_lt_is_Some. cbn [materialize].
    destruct (vocab !! w) as [t|]; simpl.
    + destruct (materialize vocab rev) as [rest|]; simpl.
      * split; [by eauto|by eexists].
      * split; [by intros [? [=]]|by intros [_ [? [=]]]].
    + split; [by intros [? [=]]|by intros [[? [=]] _]].
Qed.

Lemma materialize_tokens rev toks :
  materialize vocab rev = Some toks ->
  length toks <= length rev
  /\ forall t, t ∈ toks ->
       t <> "" /\ t <> "[UNK]" /\ exists w, w ∈ rev /\ vocab !! w = Some t.
Proof.
  revert toks. induction rev as [|w rev IH]; intros toks Hm.
  - injection Hm as <-. split; [done|]. by intros t Ht%elem_of_nil.
  - apply materialize_cons_Some in Hm as (t & rest & Hw & Hrest & ->).
    destruct (IH rest Hrest) as [Hlen Htoks].
    destruct (decide (t ∈ [""; "[UNK]"])) as [Hres|Hres].
    + split; [cbn [length]; lia|]. intros t' Ht'.
      destruct (Htoks t' Ht') as (? & ? & w' & Hw' & Hv).
      split_and!; [done..|]. exists w'. split; [by right|done].
    + split; [cbn [length]; lia|]. intros t' [->|Ht']%elem_of_cons.
      * split_and!.
        -- intros ->. apply Hres. repeat constructor.
        -- intros ->. apply Hres. repeat constructor.
        -- exists w. split; [by left|done].
      * destruct (Htoks t' Ht') as (? & ? & w' & Hw' & Hv).
        split_and!; [done..|]. exists w'. split; [by right|done].
Qed.

Lemma materialize_app a b :
  materialize vocab (a ++ b)
  = ta ← materialize vocab a; tb ← materialize vocab b; Some (ta ++ tb).
Proof.
  induction a as [|w a IH].
  - cbn [app materialize]. simpl. by destruct (materialize vocab b).
  - cbn [app materialize]. rewrite IH.
    destruct (vocab !! w) as [t|]; [|done]. simpl.
    destruct (materialize vocab a) as [ta|]; [|done]. simpl.
    destruct (materialize vocab b) as [tb|]; [|done]. simpl.
    by destruct (decide (t ∈ [""; "[UNK]"])).
Qed.

Lemma materialize_zeros k :
  vocab !! 0 = Some "" -> materialize vocab (replicate k 0) = Some [].
Proof.
  intros H0. induction k as [|k IH]; [done|].
  cbn [replicate materialize]. rewrite H0, IH. reflexivity.
Qed.

End MaterializerAnySequence.

(** X8.  The materializer fails (an IndexError) exactly when the sequence
    holds an index that is not below [len(vocab)]; on the batch,
    [X_train_words] fails exactly when some row does, and otherwise has one
    token list for every row. *)
Theorem materialize_fails_out_of_range (vocab : list string)
    (rev : list nat) (X_train_vec : list (list nat)) :
  (is_Some (materialize vocab rev)
   <-> Forall (fun w => w < length vocab) rev)
  /\ (is_Some (X_train_words vocab X_train_vec)
      <-> Forall (Forall (fun w => w < length vocab)) X_train_vec)
  /\ (forall words, X_train_words vocab X_train_vec = Some words ->
        length words = length X_train_vec).
Proof.
  split; [apply materialize_is_Some|]. split.
  - unfold X_train_words. rewrite mapM_is_Some.
    apply Forall_proper; [|done]. intros row. simpl.
    apply materialize_is_Some.
  - intros words Hw. symmetry. by apply (length_mapM _ _ _ Hw).
Qed.

(** X9.  What the materializer returns never holds the padding string or
    the unknown marker: every token it returns is a vocabulary entry at one
    of the indices of the sequence, other than those two strings, and there
    are at most as many tokens as indices. *)
Theorem materialize_drops_markers (vocab : list string) (rev : list nat)
    (toks : list string) :
  materialize vocab rev = Some toks ->
  length toks <= length rev
  /\ ("" ∉ toks) /\ ("[UNK]" ∉ toks)
  /\ forall t, t ∈ toks -> exists w, w ∈ rev /\ vocab !! w = Some t.
Proof.
  intros Hm. destruct (materialize_tokens vocab rev toks Hm) as [Hlen Htoks].
  split; [done|]. split_and!.
  - intros Hin. by destruct (Htoks _ Hin) as [? _].
  - intros Hin. by destruct (Htoks _ Hin) as (_ & ? & _).
  - intros t Hin. by destruct (Htoks _ Hin) as (_ & _ & ?).
Qed.

Lemma materialize_drops_markers_witness :
  materialize Examples.vocab4 [2; 1; 3; 2; 0; 0]
  = Some ["film"; "good"; "film"]
  /\ length ["film"; "good"; "film"] <= length [2; 1; 3; 2; 0; 0]
  /\ ("" ∉ ["film"; "good"; "film"]) /\ ("[UNK]" ∉ ["film"; "good"; "film"])
  /\ forall t, t ∈ ["film"; "good"; "film"] ->
       exists w, w ∈ [2; 1; 3; 2; 0; 0] /\ Examples.vocab4 !! w = Some t.
Proof.
  assert (H : materialize Examples.vocab4 [2; 1; 3; 2; 0; 0]
              = Some ["film"; "good"; "film"]) by reflexivity.
  split; [exact H|].
  exact (materialize_drops_markers Examples.vocab4 _ _ H).
Defined.

(** X10.  The materializer works index by index and keeps the order: the
    tokens of two sequences put end to end are the tokens of the first
    followed by those of the second, and it fails when either part fails.
    With the padding string at index 0, the zeros a sequence is padded with
    add nothing. *)
Theorem materialize_append (vocab : list string) (a b : list nat) (k : nat) :
  materialize vocab (a ++ b)
  = (ta ← materialize vocab a; tb ← materialize vocab b; Some (ta ++ tb))
  /\ (vocab !! 0 = Some "" ->
      materialize vocab (a ++ replicate k 0) = materialize vocab a).
Proof.
  split; [apply materialize_app|].
  intros H0. rewrite materialize_app, (materialize_zeros vocab k H0).
  destruct (materialize vocab a) as [ta|]; simpl; [|done].
  by rewrite app_nil_r.
Qed.

(** ** The assembler loop, whatever the shape of the default matrices *)

Section AssemblerAnyShape.

Context {vec : Type}.
Variable vocab : list string.

Lemma mapM_seq_lookup {A} (f : nat -> option A) n rows i :
  mapM f (seq 0 n) = Some rows -> i < n ->
  exists r, rows !! i = Some r /\ f i = Some r.
Proof.
  intros Hrows%mapM_Some_1 Hi.
  destruct (Forall2_lookup_l _ _ _ i i Hrows) as (r & Hr & Hf);
    [by apply lookup_seq_lt|eauto].
Qed.

Lemma fill_embeddings_Some (wvc wvs : gmap string vec) (Wc Ws : list vec) tc ts :
  fill_embeddings vocab wvc wvs Wc Ws = Some (tc, ts)
  <-> mapM (rule_row vocab wvc Wc) (seq 0 (length vocab)) = Some tc
      /\ mapM (rule_row vocab wvs Ws) (seq 0 (length vocab)) = Some ts.
Proof.
  unfold fill_embeddings. rewrite for_each_rows.
  destruct (mapM (rule_row vocab wvc Wc) _) as [rc|]; simpl;
    [|split; [done|by intros [[=] _]]].
  destruct (mapM (rule_row vocab wvs Ws) _) as [rs|]; simpl;
    [|split; [done|by intros [_ [=]]]].
  split; [by intros [= <- <-]|by intros [[= <-] [= <-]]].
Qed.

(** A row exists as soon as the default matrix has its first two rows, or
    its first row when the vocabulary has one entry. *)
Lemma rule_row_needs_two_rows (wv : gmap string vec) (W : list vec) :
  Forall (fun i => is_Some (rule_row vocab wv W i)) (seq 0 (length vocab))
  <-> min 2 (length vocab) <= length W.
Proof.
  rewrite Forall_forall. split.
  - intros Hall.
    destruct (decide (length vocab = 0)) as [|Hn0]; [lia|].
    assert (is_Some (rule_row vocab wv W 0)) as H0.
    { apply Hall, elem_of_seq. lia. }
    unfold rule_row in H0. rewrite decide_False in H0 by lia.
    apply lookup_lt_is_Some in H0.
    destruct (decide (length vocab = 1)) as [|Hn1]; [lia|].
    assert (is_Some (rule_row vocab wv W 1)) as H1.
    { apply Hall, elem_of_seq. lia. }
    unfold rule_row in H1. rewrite decide_False in H1 by lia.
    apply lookup_lt_is_Some in H1. lia.
  - intros HW i [_ Hi]%elem_of_seq. unfold rule_row, trained_or_unk.
    destruct (decide (1 < i)).
    + destruct (lookup_lt_is_Some_2 vocab i ltac:(lia)) as [tok ->]. simpl.
      destruct (wv !! tok); [done|]. apply lookup_lt_is_Some_2. lia.
    + apply lookup_lt_is_Some_2. lia.
Qed.

(** Only rows 0 and 1 of a default matrix are ever read. *)
Lemma rule_row_reads_two_rows (wv : gmap string vec) (W W' : list vec) i :
  W !! 0 = W' !! 0 -> W !! 1 = W' !! 1 ->
  rule_row vocab wv W i = rule_row vocab wv W' i.
Proof.
  intros H0 H1. unfold rule_row, trained_or_unk.
  destruct (decide (1 < i)).
  - destruct (vocab !! i) as [tok|]; simpl; [|done].
    by destruct (wv !! tok).
  - destruct i as [|[|i]]; [done|done|lia].
Qed.

Lemma rule_row_provenance (wv : gmap string vec) (W : list vec) i r :
  rule_row vocab wv W i = Some r ->
  W !! 0 = Some r \/ W !! 1 = Some r
  \/ exists tok, 1 < i /\ vocab !! i = Some tok /\ wv !! tok = Some r.
Proof.
  unfold rule_row, trained_or_unk. destruct (decide (1 < i)).
  - destruct (vocab !! i) as [tok|] eqn:Htok; simpl; [|done].
    destruct (wv !! tok) as [v|] eqn:Hv.
    + intros [= <-]. right; right. eauto.
    + intros H1. right; left. done.
  - destruct i as [|[|i]]; [by left|by right; left|lia].
Qed.

End AssemblerAnyShape.

(** X11.  The loop completes (no IndexError) exactly when each default
    matrix has its rows 0 and 1, or its row 0 alone for a vocabulary of one
    entry; a vocabulary of no entry needs nothing.  When it completes, both
    tables have [len(vocab)] rows. *)
Theorem fill_embeddings_completes {vec : Type} (vocab : list string)
    (wv_cbow wv_skipgram : gmap string vec) (W_cbow W_skipgram : list vec) :
  (is_Some (fill_embeddings vocab wv_cbow wv_skipgram W_cbow W_skipgram)
   <-> min 2 (length vocab) <= length W_cbow
       /\ min 2 (length vocab) <= length W_skipgram)
  /\ (forall tc ts,
        fill_embeddings vocab wv_cbow wv_skipgram W_cbow W_skipgram
        = Some (tc, ts) ->
        length tc = length vocab /\ length ts = length vocab).
Proof.
  split.
  - split.
    + intros [[tc ts] [Hc Hs]%fill_embeddings_Some].
      split.
      * apply (proj1 (rule_row_needs_two_rows vocab wv_cbow W_cbow)).
        exact (mapM_is_Some_1 _ _ (mk_is_Some _ _ Hc)).
      * apply (proj1 (rule_row_needs_two_rows vocab wv_skipgram W_skipgram)).
        exact (mapM_is_Some_1 _ _ (mk_is_Some _ _ Hs)).
    + intros [Hc Hs].
      apply (proj2 (rule_row_needs_two_rows vocab wv_cbow W_cbow)) in Hc.
      apply (proj2 (rule_row_needs_two_rows vocab wv_skipgram W_skipgram)) in Hs.
      destruct (mapM_is_Some_2 (rule_row vocab wv_cbow W_cbow) _ Hc) as [tc Htc].
      destruct (mapM_is_Some_2 (rule_row vocab wv_skipgram W_skipgram) _ Hs)
        as [ts Hts].
      exists (tc, ts). by apply fill_embeddings_Some.
  - intros tc ts [Hc Hs]%fill_embeddings_Some.
    apply length_mapM in Hc, Hs. rewrite length_seq in Hc, Hs. done.
Qed.

(** X12.  The tables depend on the default matrices through their rows 0
    and 1 only: two pairs of default matrices that agree on these rows give
    the same result, whatever their other rows and their row counts. *)
Theorem fill_embeddings_reads_two_rows {vec : Type} (vocab : list string)
    (wv_cbow wv_skipgram : gmap string vec)
    (W_cbow W_skipgram W_cbow' W_skipgram' : list vec) :
  W_cbow !! 0 = W_cbow' !! 0 -> W_cbow !! 1 = W_cbow' !! 1 ->
  W_skipgram !! 0 = W_skipgram' !! 0 -> W_skipgram !! 1 = W_skipgram' !! 1 ->
  fill_embeddings vocab wv_cbow wv_skipgram W_cbow W_skipgram
  = fill_embeddings vocab wv_cbow wv_skipgram W_cbow' W_skipgram'.
Proof.
  intros Hc0 Hc1 Hs0 Hs1. unfold fill_embeddings. rewrite !for_each_rows.
  rewrite (mapM_ext (rule_row vocab wv_cbow W_cbow)
             (rule_row vocab wv_cbow W_cbow'))
    by (intros i; by apply rule_row_reads_two_rows).
  rewrite (mapM_ext (rule_row vocab wv_skipgram W_skipgram)
             (rule_row vocab wv_skipgram W_skipgram'))
    by (intros i; by apply rule_row_reads_two_rows).
  done.
Qed.

Lemma fill_embeddings_reads_two_rows_witness :
  let W := [[1%Q]; [2%Q]; [3%Q]; [4%Q]] in
  let W' := [[1%Q]; [2%Q]] in
  W !! 0 = W' !! 0 /\ W !! 1 = W' !! 1
  /\ fill_embeddings Examples.vocab4 ∅ ∅ W W
     = fill_embeddings Examples.vocab4 ∅ ∅ W' W'.
Proof.
  intros W W'.
  split; [reflexivity|]. split; [reflexivity|].
  apply (fill_embeddings_reads_two_rows Examples.vocab4 ∅ ∅ W W W' W');
    reflexivity.
Defined.

(** X13.  The two tables are built side by side but do not influence each
    other: when the loop completes, the CBOW table is the same whatever the
    Skip-Gram mapping and default matrix were, and the other way round. *)
Theorem fill_embeddings_variants_independent {vec : Type} (vocab : list string)
    (wv_cbow wv_skipgram wv_cbow' wv_skipgram' : gmap string vec)
    (W_cbow W_skipgram W_cbow' W_skipgram' : list vec)
    (tc ts tc1 ts1 tc2 ts2 : list vec) :
  fill_embeddings vocab wv_cbow wv_skipgram W_cbow W_skipgram = Some (tc, ts) ->
  fill_embeddings vocab wv_cbow wv_skipgram' W_cbow W_skipgram' = Some (tc1, ts1) ->
  fill_embeddings vocab wv_cbow' wv_skipgram W_cbow' W_skipgram = Some (tc2, ts2) ->
  tc1 = tc /\ ts2 = ts.
Proof.
  intros [Hc Hs]%fill_embeddings_Some [Hc1 _]%fill_embeddings_Some
         [_ Hs2]%fill_embeddings_Some.
  split; congruence.
Qed.

Lemma fill_embeddings_variants_independent_witness :
  let W := [[1%Q]; [2%Q]] in
  let T := [[1%Q]; [2%Q]; [2%Q]; [(1 # 10)%Q; (2 # 10)%Q]] in
  let U := [[1%Q]; [2%Q]; [2%Q]; [2%Q]] in
  fill_embeddings Examples.vocab4 Examples.trained_good ∅ W W = Some (T, U)
  /\ fill_embeddings Examples.vocab4 Examples.trained_good
       Examples.trained_good W W = Some (T, T)
  /\ fill_embeddings Examples.vocab4 ∅ ∅ W W = Some (U, U)
  /\ T = T /\ U = U.
Proof.
  intros W T U.
  assert (H1 : fill_embeddings Examples.vocab4 Examples.trained_good ∅ W W
               = Some (T, U)) by (vm_compute; reflexivity).
  assert (H2 : fill_embeddings Examples.vocab4 Examples.trained_good
                 Examples.trained_good W W = Some (T, T))
    by (vm_compute; reflexivity).
  assert (H3 : fill_embeddings Examples.vocab4 ∅ ∅ W W = Some (U, U))
    by (vm_compute; reflexivity).
  split; [exact H1|]. split; [exact H2|]. split; [exact H3|].
  exact (fill_embeddings_variants_independent _ _ _ _ _ _ _ _ _ _ _ _ _ _ _
           H1 H2 H3).
Defined.

(** X14.  Nothing else enters a table: every row of a completed table is
    row 0 or row 1 of the default matrix, or the trained vector of a
    vocabulary token at an index above 1. *)
Theorem fill_embeddings_row_origin {vec : Type} (vocab : list string)
    (wv_cbow wv_skipgram : gmap string vec) (W_cbow W_skipgram : list vec)
    (tc ts : list vec) :
  fill_embeddings vocab wv_cbow wv_skipgram W_cbow W_skipgram = Some (tc, ts) ->
  (forall r, r ∈ tc ->
     W_cbow !! 0 = Some r \/ W_cbow !! 1 = Some r
     \/ exists i tok, 1 < i /\ vocab !! i = Some tok /\ wv_cbow !! tok = Some r)
  /\ (forall r, r ∈ ts ->
        W_skipgram !! 0 = Some r \/ W_skipgram !! 1 = Some r
        \/ exists i tok,
             1 < i /\ vocab !! i = Some tok /\ wv_skipgram !! tok = Some r).
Proof.
  intros [Hc Hs]%fill_embeddings_Some.
  apply mapM_Some_1 in Hc, Hs.
  split; intros r [j Hj]%list_elem_of_lookup_1.
  - destruct (Forall2_lookup_r _ _ _ j r Hc Hj) as (i & _ & Hrow).
    apply rule_row_provenance in Hrow as [?|[?|(tok & ? & ? & ?)]]; eauto 8.
  - destruct (Forall2_lookup_r _ _ _ j r Hs Hj) as (i & _ & Hrow).
    apply rule_row_provenance in Hrow as [?|[?|(tok & ? & ? & ?)]]; eauto 8.
Qed.

Lemma fill_embeddings_row_origin_witness :
  let W := [[1%Q]; [2%Q]] in
  let T := [[1%Q]; [2%Q]; [2%Q]; [(1 # 10)%Q; (2 # 10)%Q]] in
  let U := [[1%Q]; [2%Q]; [2%Q]; [2%Q]] in
  fill_embeddings Examples.vocab4 Examples.trained_good ∅ W W = Some (T, U)
  /\ (forall r, r ∈ T ->
        W !! 0 = Some r \/ W !! 1 = Some r
        \/ exists i tok, 1 < i /\ Examples.vocab4 !! i = Some tok
                         /\ Examples.trained_good !! tok = Some r)
  /\ (forall r, r ∈ U ->
        W !! 0 = Some r \/ W !! 1 = Some r
        \/ exists i tok, 1 < i /\ Examples.vocab4 !! i = Some tok
                         /\ (∅ : gmap string (list Q)) !! tok = Some r).
Proof.
  intros W T U.
  assert (H : fill_embeddings Examples.vocab4 Examples.trained_good ∅ W W
              = Some (T, U)) by (vm_compute; reflexivity).
  split; [exact H|].
  exact (fill_embeddings_row_origin _ _ _ _ _ _ _ H).
Defined.

(** X15.  From the materializer to the table: with a vocabulary that starts
    with the two markers, every token the materializer emits sits at a
    vocabulary index above 1, and a vector trained for it - by either
    variant - is the row of that variant's table at that index. *)
Theorem emitted_tokens_get_their_vectors {vec : Type} (rest : list string)
    (wv_cbow wv_skipgram : gmap string vec) (W_cbow W_skipgram : list vec)
    (rev : list nat) (toks : list string) (tc ts : list vec) (t : string) :
  materialize ("" :: "[UNK]" :: rest) rev = Some toks ->
  t ∈ toks ->
  fill_embeddings ("" :: "[UNK]" :: rest) wv_cbow wv_skipgram W_cbow W_skipgram
  = Some (tc, ts) ->
  exists i,
    1 < i /\ ("" :: "[UNK]" :: rest) !! i = Some t
    /\ (forall v, wv_cbow !! t = Some v -> tc !! i = Some v)
    /\ (forall v, wv_skipgram !! t = Some v -> ts !! i = Some v).
Proof.
  intros Hm Ht [Hc Hs]%fill_embeddings_Some.
  destruct (materialize_tokens _ _ _ Hm) as [_ Htoks].
  destruct (Htoks t Ht) as (H0 & H1 & w & _ & Hw).
  assert (1 < w) as Hgt.
  { destruct w as [|[|w]]; [|simplify_eq/=|lia]; simplify_eq/=. }
  pose proof (lookup_lt_Some _ _ _ Hw) as Hlt.
  exists w. split; [done|]. split; [done|].
  destruct (mapM_seq_lookup _ _ _ w Hc Hlt) as (rc & Hrc & Hrowc).
  destruct (mapM_seq_lookup _ _ _ w Hs Hlt) as (rs & Hrs & Hrows).
  unfold rule_row, trained_or_unk in Hrowc, Hrows.
  rewrite decide_True in Hrowc, Hrows by done.
  rewrite Hw in Hrowc, Hrows. simpl in Hrowc, Hrows.
  split; intros v Hv; rewrite Hv in *; congruence.
Qed.

Lemma emitted_tokens_get_their_vectors_witness :
  let W := [[1%Q]; [2%Q]] in
  let T := [[1%Q]; [2%Q]; [2%Q]; [(1 # 10)%Q; (2 # 10)%Q]] in
  materialize ("" :: "[UNK]" :: ["film"; "good"]) [2; 3; 2; 0; 0]
  = Some ["film"; "good"; "film"]
  /\ ("good" ∈ ["film"; "good"; "film"])
  /\ fill_embeddings ("" :: "[UNK]" :: ["film"; "good"])
       Examples.trained_good Examples.trained_good W W = Some (T, T)
  /\ exists i,
       1 < i /\ ("" :: "[UNK]" :: ["film"; "good"]) !! i = Some "good"
       /\ (forall v, Examples.trained_good !! "good" = Some v -> T !! i = Some v)
       /\ (forall v, Examples.trained_good !! "good" = Some v -> T !! i = Some v).
Proof.
  intros W T.
  assert (Hm : materialize ("" :: "[UNK]" :: ["film"; "good"]) [2; 3; 2; 0; 0]
               = Some ["film"; "good"; "film"]) by reflexivity.
  assert (Ht : "good" ∈ ["film"; "good"; "film"]) by repeat constructor.
  assert (Hf : fill_embeddings ("" :: "[UNK]" :: ["film"; "good"])
                 Examples.trained_good Examples.trained_good W W = Some (T, T))
    by (vm_compute; reflexivity).
  split; [exact Hm|]. split; [exact Ht|]. split; [exact Hf|].
  exact (emitted_tokens_get_their_vectors _ _ _ _ _ _ _ _ _ _ Hm Ht Hf).
Defined.

(** ** What exactly a match removes *)

Section UrlCut.

Import Scan.

Lemma re_sub_url_from_true_run t :
  PyStr.all_chars (fun c => negb (PyStr.isspace c)) t = true ->
  PyStr.re_sub_url_from true t = "".
Proof.
  induction t as [|c t IH]; [done|].
  cbn [PyStr.all_chars PyStr.re_sub_url_from].
  intros [Hc%negb_true_iff Ht]%andb_prop. rewrite Hc. by apply IH.
Qed.

Lemma starts_then_nonspace_app p t x :
  String.length p + 1 <= String.length t ->
  starts_then_nonspace p (t ++ x) = starts_then_nonspace p t.
Proof.
  revert t. induction p as [|a p IH]; intros [|c t] Hlen;
    cbn [String.length] in Hlen; try lia; rewrite string_app_cons;
    cbn [starts_then_nonspace]; [done|].
  rewrite IH by lia. done.
Qed.

Lemma url_match_here_app t x :
  5 <= String.length t ->
  PyStr.url_match_here (t ++ x) = PyStr.url_match_here t.
Proof.
  intros Hlen. rewrite !url_match_here_shape.
  apply starts_then_nonspace_app. cbn [String.length]. lia.
Qed.

Lemma string_length_app (a b : string) :
  String.length (a ++ b) = String.length a + String.length b.
Proof.
  induction a as [|c a IH]; [done|].
  rewrite string_app_cons. cbn [String.length]. by rewrite IH.
Qed.

Lemma re_sub_url_from_cut p u :
  PyStr.has_url_match (p ++ "http") = false ->
  u <> "" ->
  PyStr.all_chars (fun c => negb (PyStr.isspace c)) u = true ->
  PyStr.re_sub_url_from false (p ++ "http" ++ u) = p.
Proof.
  intros Hp Hu Hns. induction p as [|c p IH].
  - destruct u as [|c u]; [done|].
    cbn [PyStr.all_chars] in Hns. apply andb_prop in Hns as [Hc Hns].
    set (X := String "t" (String "t" (String "p" (String c u)))).
    change ("" ++ "http" ++ String c u)%string with (String "h" X).
    change (PyStr.re_sub_url_from false (String "h" X))
      with (if PyStr.url_match_here (String "h" X)
            then PyStr.re_sub_url_from true X
            else String "h" (PyStr.re_sub_url_from false X)).
    assert (PyStr.url_match_here (String "h" X) = true) as -> by exact Hc.
    apply re_sub_url_from_true_run. subst X. cbn [PyStr.all_chars].
    change (PyStr.isspace "t") with false. change (PyStr.isspace "p") with false.
    cbn [negb andb]. by rewrite Hc, Hns.
  - rewrite string_app_cons in Hp |- *.
    cbn [PyStr.has_url_match] in Hp.
    apply orb_false_elim in Hp as [Hhere Hrest].
    cbn [PyStr.re_sub_url_from].
    assert (PyStr.url_match_here (String c (p ++ "http" ++ u)) = false) as ->.
    { replace (String c (p ++ "http" ++ u))
        with ((String c (p ++ "http")) ++ u)%string
        by (by rewrite string_app_cons, string_app_assoc).
      rewrite url_match_here_app; [exact Hhere|].
      cbn [String.length]. rewrite string_length_app.
      cbn [String.length]. lia. }
    by rewrite (IH Hrest).
Qed.

End UrlCut.

(** X16.  What a match removes: in a word that has no match before its
    last http, everything from that http to the end of the word goes and
    what stands before it stays - at the end of the text as well as before a
    whitespace character, after which removal goes on as usual. *)
Theorem re_sub_url_cut (p u : string) (w : ascii) (b : string) :
  PyStr.has_url_match (p ++ "http") = false ->
  u <> "" ->
  PyStr.all_chars (fun c => negb (PyStr.isspace c)) u = true ->
  PyStr.isspace w = true ->
  PyStr.re_sub_url (p ++ "http" ++ u) = p
  /\ PyStr.re_sub_url ((p ++ "http" ++ u) ++ String w b)
     = (p ++ String w (PyStr.re_sub_url b))%string.
Proof.
  intros Hp Hu Hns Hw. unfold PyStr.re_sub_url.
  rewrite (re_sub_url_from_app_space false _ w b Hw).
  by rewrite (re_sub_url_from_cut p u Hp Hu Hns).
Qed.

Lemma re_sub_url_cut_witness :
  PyStr.has_url_match ("see:" ++ "http") = false
  /\ "://a.b/c?d=1" <> ""
  /\ PyStr.all_chars (fun c => negb (PyStr.isspace c)) "://a.b/c?d=1" = true
  /\ PyStr.isspace " " = true
  /\ PyStr.re_sub_url ("see:" ++ "http" ++ "://a.b/c?d=1") = "see:"
  /\ PyStr.re_sub_url (("see:" ++ "http" ++ "://a.b/c?d=1") ++ String " " "now")
     = ("see:" ++ String " " (PyStr.re_sub_url "now"))%string.
Proof.
  assert (H1 : PyStr.has_url_match ("see:" ++ "http") = false) by reflexivity.
  assert (H2 : "://a.b/c?d=1" <> "") by discriminate.
  assert (H3 : PyStr.all_chars (fun c => negb (PyStr.isspace c))
                 "://a.b/c?d=1" = true) by reflexivity.
  assert (H4 : PyStr.isspace " " = true) by reflexivity.
  split; [exact H1|]. split; [exact H2|]. split; [exact H3|].
  split; [exact H4|].
  exact (re_sub_url_cut "see:" "://a.b/c?d=1" " " "now" H1 H2 H3 H4).
Defined.

(** ** Filtering by string and filtering by index *)

(** X17.  The comprehension drops an index when the vocabulary entry there
    is one of the two marker strings.  When these strings occur at indices 0
    and 1 only, that is the same as dropping the indices 0 and 1: the
    result is the vocabulary entries at the remaining indices, in order, and
    an index out of range makes both fail. *)
Theorem materialize_filters_indices (rest : list string) (rev : list nat) :
  "" ∉ rest -> "[UNK]" ∉ rest ->
  materialize ("" :: "[UNK]" :: rest) rev
  = mapM (fun w => ("" :: "[UNK]" :: rest) !! w) (real_indices rev).
Proof.
  intros H0 H1. unfold real_indices.
  induction rev as [|w rev IH]; [done|].
  cbn [materialize]. rewrite IH.
  destruct w as [|[|w]].
  - rewrite filter_cons_False by (unfold PAD; intros [? _]; done).
    simpl. by destruct (mapM _ _).
  - rewrite filter_cons_False by (unfold UNK; intros [_ ?]; done).
    simpl. by destruct (mapM _ _).
  - rewrite filter_cons_True by (unfold PAD, UNK; lia).
    cbn [mapM]. change (("" :: "[UNK]" :: rest) !! S (S w)) with (rest !! w).
    destruct (rest !! w) as [t|] eqn:Ht; [|done]. simpl.
    destruct (mapM _ _) as [ts|]; [|done]. simpl.
    rewrite decide_False; [done|].
    apply list_elem_of_lookup_2 in Ht.
    rewrite !elem_of_cons, elem_of_nil. intros [->|[->|[]]]; contradiction.
Qed.

Lemma materialize_filters_indices_witness :
  ("" ∉ ["film"; "good"]) /\ ("[UNK]" ∉ ["film"; "good"])
  /\ materialize ("" :: "[UNK]" :: ["film"; "good"]) [2; 1; 3; 0]
     = mapM (fun w => ("" :: "[UNK]" :: ["film"; "good"]) !! w)
         (real_indices [2; 1; 3; 0]).
Proof.
  assert (H0 : "" ∉ ["film"; "good"]).
  { refine (bool_decide_unpack _ _). vm_compute. exact I. }
  assert (H1 : "[UNK]" ∉ ["film"; "good"]).
  { refine (bool_decide_unpack _ _). vm_compute. exact I. }
  split; [exact H0|]. split; [exact H1|].
  exact (materialize_filters_indices ["film"; "good"] [2; 1; 3; 0] H0 H1).
Defined.
